(** * Ribasim Python package: the [Model] aggregate of [ribasim/model.py]

    A shallow embedding of [ribasim.model.Model]: the reflection helpers
    [_nodes] and [node_table], the persistence entry points [write] and
    [read] with their helpers [_save], [_write_toml], [_load] and
    [reset_contextvar], and the unimplemented validation stubs.

    Conventions.
    - Python exceptions are values of [Exn]; a call that raises keeps the
      side effects it performed before raising.
    - The file system and the [context_file_loading] context variable form
      the [World] threaded through the [IO] monad.
    - Data frames that are sorted in place ([node_table]) live in a [Heap]
      and are referred to by location; persistence works on frame values.
    - [pathlib], [pandas], [pydantic], [tomli] and [tomli_w] are external
      libraries: their documented behaviour is written out where the module
      relies on it. *)

From stdpp Require Import gmap strings list fin_maps sorting.
From Stdlib Require Import ZArith Lia Ascii.

Local Open Scope Z_scope.

(** ** Python exceptions *)

Inductive Exn :=
| ValueError
| NotImplementedError
| FileNotFoundError
| FileExistsError
| NotADirectoryError
| IsADirectoryError
| KeyError
| TypeError
| TOMLDecodeError
| ValidationError.

Global Instance Exn_eq_dec : EqDecision Exn.
Proof. solve_decision. Defined.

(** ** pathlib.PurePosixPath *)

Module pathlib.

(** A parsed path: whether it is anchored at the root, and its components. *)
Record Path := mkPath { absolute : bool; parts : list string }.

Global Instance Path_eq_dec : EqDecision Path.
Proof. solve_decision. Defined.

Global Instance Path_countable : Countable Path.
Proof.
  apply (inj_countable' (λ p, (absolute p, parts p))
                        (λ x, mkPath x.1 x.2)).
  by intros [].
Defined.

(** [str.rfind(c)]: index of the last occurrence. *)
Fixpoint rfind (c : ascii) (s : string) : option nat :=
  match s with
  | EmptyString => None
  | String a s' =>
      match rfind c s' with
      | Some i => Some (S i)
      | None => if Ascii.eqb a c then Some 0%nat else None
      end
  end.

(** [s[i:]] *)
Fixpoint drop_chars (i : nat) (s : string) : string :=
  match i, s with
  | O, _ => s
  | S i', String _ s' => drop_chars i' s'
  | S _, EmptyString => EmptyString
  end.

(** [Path.name]: the final component, or the empty string. *)
Definition name (p : Path) : string := default "" (last (parts p)).

(** [Path.suffix]:
    [i = name.rfind('.'); name[i:] if 0 < i < len(name) - 1 else ''] *)
Definition suffix (p : Path) : string :=
  let nm := name p in
  match rfind "."%char nm with
  | Some i =>
      if bool_decide (0 < i < String.length nm - 1)%nat
      then drop_chars i nm else ""
  | None => ""
  end.

(** [Path.parent]: the path without its final component; the parent of
    [Path(".")] and of the root is the path itself. *)
Definition parent (p : Path) : Path :=
  mkPath (absolute p) (removelast (parts p)).

(** [p / q]: an absolute right operand replaces the left one. *)
Definition joinpath (p q : Path) : Path :=
  if absolute q then q else mkPath (absolute p) (parts p ++ parts q).

Fixpoint join_parts (l : list string) : string :=
  match l with
  | [] => ""
  | [a] => a
  | a :: l' => a +:+ "/" +:+ join_parts l'
  end.

(** [str(p)]: root and components joined by the separator, or ["."]
    when that is empty. *)
Definition str (p : Path) : string :=
  let s := (if absolute p then "/" else "") +:+ join_parts (parts p) in
  if decide (s = "") then "." else s.

(** Splitting at the separator. *)
Fixpoint split_sep (s : string) : list string :=
  match s with
  | EmptyString => [""]
  | String c s' =>
      if Ascii.eqb c "/"%char then "" :: split_sep s'
      else match split_sep s' with
           | [] => [String c ""]
           | h :: t => String c h :: t
           end
  end.

Definition is_component (c : string) : bool :=
  negb (String.eqb c "") && negb (String.eqb c ".").

(** [Path(s)] for a string: a leading separator anchors the path; empty
    components and ["."] components are dropped. *)
Definition of_str (s : string) : Path :=
  mkPath (match s with String c _ => Ascii.eqb c "/"%char | _ => false end)
         (List.filter is_component (split_sep s)).

(** A component as pathlib produces them: non-empty, not ["."], and free
    of the separator. *)
Definition component_ok (c : string) : Prop :=
  c ≠ "" ∧ c ≠ "." ∧ rfind "/"%char c = None.

Definition Path_wf (p : Path) : Prop := Forall component_ok (parts p).

Global Instance component_ok_dec c : Decision (component_ok c).
Proof. unfold component_ok. apply _. Defined.

Global Instance Path_wf_dec p : Decision (Path_wf p).
Proof. unfold Path_wf. apply _. Defined.

End pathlib.

Export pathlib (Path, mkPath).

(** ** Tabular data *)

(** A [datetime.datetime], kept as an opaque number. *)
Definition datetime := Z.

(** Modelled from the spec: the row schemas are declared in
    [ribasim.geometry] and [ribasim.config], which are not part of this
    module. A node has an integer ID, a type tag, an optional name and an
    optional point geometry; an edge has an ID, the IDs of its two end
    points, a type tag and an optional line geometry. Coordinates are kept
    as opaque numbers. *)
Record NodeRow := mkNodeRow {
  node_id : Z;
  node_type : string;
  node_name : option string;
  node_geometry : option (Z * Z)
}.

Record EdgeRow := mkEdgeRow {
  edge_id : Z;
  from_node_id : Z;
  to_node_id : Z;
  edge_type : string;
  edge_geometry : option (list (Z * Z))
}.

Global Instance NodeRow_eq_dec : EqDecision NodeRow.
Proof. solve_decision. Defined.

Global Instance EdgeRow_eq_dec : EqDecision EdgeRow.
Proof. solve_decision. Defined.

(** ** Configuration values *)

(** Scalars of a dumped model. [SFloat] carries the IEEE-754 binary64 bit
    pattern, which is only ever copied. *)
Inductive Scalar :=
| SNone
| SBool (b : bool)
| SInt (z : Z)
| SFloat (bits : Z)
| SStr (s : string)
| SDatetime (t : datetime).

Global Instance Scalar_eq_dec : EqDecision Scalar.
Proof. solve_decision. Defined.

(** A dumped field is a scalar or, for a child model, a dictionary of
    scalars. Python dictionaries keep insertion order. *)
Inductive Value :=
| VScalar (s : Scalar)
| VDict (d : list (string * Scalar)).

Global Instance Value_eq_dec : EqDecision Value.
Proof. solve_decision. Defined.

Abbreviation PyDict := (list (string * Value)) (only parsing).

(** [d.get(k)] *)
Fixpoint dict_get {V} (k : string) (d : list (string * V)) : option V :=
  match d with
  | [] => None
  | (k', v) :: d' => if decide (k' = k) then Some v else dict_get k d'
  end.

(** [d[k] = v]: an existing key keeps its position, a new key goes last. *)
Fixpoint dict_set {V} (k : string) (v : V) (d : list (string * V))
  : list (string * V) :=
  match d with
  | [] => [(k, v)]
  | (k', v') :: d' =>
      if decide (k' = k) then (k, v) :: d' else (k', v') :: dict_set k v d'
  end.

(** Python truth value, as [filter(lambda x: x[1], ...)] tests it. *)
Definition truthy (v : Value) : bool :=
  match v with
  | VScalar SNone => false
  | VScalar (SBool b) => b
  | VScalar (SInt z) => negb (z =? 0)
  | VScalar (SFloat bits) => negb ((bits =? 0) || (bits =? 2 ^ 63))
  | VScalar (SStr s) => negb (String.eqb s "")
  | VScalar (SDatetime _) => true
  | VDict d => match d with [] => false | _ => true end
  end.

(** ** The geometry store *)

Definition ParamRow := list (string * Scalar).

(** Modelled from the spec: the geometry store holds one named layer per
    table: the edge layer, one node layer per node class, and one layer per
    populated parameter table of a node class. *)
Record Database := mkDatabase {
  node_layers : gmap string (list NodeRow);
  edge_layer : option (list EdgeRow);
  param_layers : gmap (string * string) (list ParamRow)
}.

Definition empty_database : Database := mkDatabase ∅ None ∅.

(** ** File system and context variable *)

(** A configuration file is represented by the document that was handed
    to [tomli_w.dump], and that [tomli.load] gives back: a mapping from
    keys to values. The order of the entries is the insertion order of the
    dict, not the order of the text in the file (TOML puts the top-level
    scalars before the tables); the statements use the entries through
    [dict_get] and membership only.

    Paths are keys as [pathlib] compares them: component by component,
    with [..] an ordinary component and no link to the working directory.
    Statements that tell paths apart are made for paths without [..]
    under one anchor. *)
Inductive FsNode :=
| Dir
| TomlFile (content : PyDict)
| Gpkg (db : Database).

Record World := mkWorld {
  fs : gmap Path FsNode;
  context_file_loading : gmap string Path
}.

Definition set_fs (f : gmap Path FsNode) (w : World) : World :=
  mkWorld f (context_file_loading w).

Definition set_context (c : gmap string Path) (w : World) : World :=
  mkWorld (fs w) c.

(** ** Computations that may raise *)

Definition IO (A : Type) : Type := World → (Exn + A) * World.

Definition ret {A} (a : A) : IO A := λ w, (inr a, w).

Definition raise {A} (e : Exn) : IO A := λ w, (inl e, w).

Definition bind {A B} (c : IO A) (k : A → IO B) : IO B :=
  λ w, match c w with
       | (inl e, w') => (inl e, w')
       | (inr a, w') => k a w'
       end.

Notation "'let*' x ':=' c 'in' k" := (bind c (λ x, k))
  (at level 10, x binder, k at level 200).

Definition get_world : IO World := λ w, (inr w, w).

Definition put_fs (f : gmap Path FsNode) : IO unit :=
  λ w, (inr tt, set_fs f w).

(** [context_file_loading.set(c)] *)
Definition context_set (c : gmap string Path) : IO unit :=
  λ w, (inr tt, set_context c w).

(** [context_file_loading.get()[k] = p] *)
Definition context_setitem (k : string) (p : Path) : IO unit :=
  λ w, (inr tt, set_context (<[k := p]> (context_file_loading w)) w).

Definition lift_result {A} (r : Exn + A) : IO A :=
  match r with inl e => raise e | inr a => ret a end.

(** ** File operations *)

(** The working directory and the root always exist. *)
Definition is_dir (f : gmap Path FsNode) (p : Path) : bool :=
  match pathlib.parts p with
  | [] => true
  | _ => match f !! p with Some Dir => true | _ => false end
  end.

(** [Path.mkdir(parents=True, exist_ok=True)]: every missing directory on
    the way is created; a component that exists as a file is an error. *)
Fixpoint mkdir_from (anchor : bool) (done todo : list string)
    (f : gmap Path FsNode) : Exn + gmap Path FsNode :=
  match todo with
  | [] => inr f
  | c :: rest =>
      let p := mkPath anchor (done ++ [c]) in
      match f !! p with
      | Some Dir => mkdir_from anchor (done ++ [c]) rest f
      | Some _ =>
          inl (match rest with [] => FileExistsError | _ => NotADirectoryError end)
      | None => mkdir_from anchor (done ++ [c]) rest (<[p := Dir]> f)
      end
  end.

Definition mkdir (p : Path) : IO unit :=
  let* w := get_world in
  let* f := lift_result (mkdir_from (pathlib.absolute p) [] (pathlib.parts p) (fs w)) in
  put_fs f.

(** [Path.unlink(missing_ok=True)] *)
Definition unlink (p : Path) : IO unit :=
  let* w := get_world in
  match fs w !! p with
  | None => ret tt
  | Some Dir => raise IsADirectoryError
  | Some _ => put_fs (delete p (fs w))
  end.

(** [open(fn, "wb")] followed by writing [node]: the parent must be a
    directory and the target must not be one. *)
Definition open_wb (fn : Path) (node : FsNode) : IO unit :=
  let* w := get_world in
  match fs w !! fn with
  | Some Dir => raise IsADirectoryError
  | _ =>
      if is_dir (fs w) (pathlib.parent fn)
      then put_fs (<[fn := node]> (fs w))
      else match fs w !! pathlib.parent fn with
           | Some _ => raise NotADirectoryError
           | None => raise FileNotFoundError
           end
  end.

(** [open(fn, "rb")] followed by [tomli.load]. *)
Definition open_rb_toml (fn : Path) : IO PyDict :=
  let* w := get_world in
  match fs w !! fn with
  | None => raise FileNotFoundError
  | Some Dir => raise IsADirectoryError
  | Some (Gpkg _) => raise TOMLDecodeError
  | Some (TomlFile content) => ret content
  end.

(** ** The model aggregate *)

(** Modelled from the spec: the table and settings classes are declared in
    [ribasim.geometry], [ribasim.config] and [ribasim.input_base]. A table
    holds an optional data frame; a node class owns a node table and named
    parameter tables; a settings group is a pydantic model with scalar
    fields, of which [child_fields_set] were explicitly set. *)
Record NodeTable (D : Type) := mkNodeTable { df : option D }.
Arguments mkNodeTable {D} _.
Arguments df {D} _.

Record EdgeTable := mkEdgeTable { edge_df : option (list EdgeRow) }.

Record MultiNodeModel (D : Type) := mkMultiNodeModel {
  node : NodeTable D;
  tables : list (string * option (list ParamRow))
}.
Arguments mkMultiNodeModel {D} _ _.
Arguments node {D} _.
Arguments tables {D} _.

Record ChildModel := mkChildModel {
  child_fields : list (string * Scalar);
  child_fields_set : gset string
}.

(** [class Model(FileModel)]. The parameter [D] is the representation of a
    node data frame: a list of rows, or a location in a [Heap]. *)
Record Model (D : Type) := mkModel {
  filepath : option Path;
  starttime : datetime;
  endtime : datetime;
  input_dir : Path;
  results_dir : Path;
  allocation : ChildModel;
  logging : ChildModel;
  solver : ChildModel;
  results : ChildModel;
  basin : MultiNodeModel D;
  linear_resistance : MultiNodeModel D;
  manning_resistance : MultiNodeModel D;
  tabulated_rating_curve : MultiNodeModel D;
  fractional_flow : MultiNodeModel D;
  pump : MultiNodeModel D;
  level_boundary : MultiNodeModel D;
  flow_boundary : MultiNodeModel D;
  outlet : MultiNodeModel D;
  terminal : MultiNodeModel D;
  discrete_control : MultiNodeModel D;
  pid_control : MultiNodeModel D;
  user_demand : MultiNodeModel D;
  level_demand : MultiNodeModel D;
  edge : EdgeTable;
  model_fields_set : gset string
}.
Arguments mkModel {D}.
Arguments filepath {D} _.
Arguments starttime {D} _.
Arguments endtime {D} _.
Arguments input_dir {D} _.
Arguments results_dir {D} _.
Arguments allocation {D} _.
Arguments logging {D} _.
Arguments solver {D} _.
Arguments results {D} _.
Arguments basin {D} _.
Arguments linear_resistance {D} _.
Arguments manning_resistance {D} _.
Arguments tabulated_rating_curve {D} _.
Arguments fractional_flow {D} _.
Arguments pump {D} _.
Arguments level_boundary {D} _.
Arguments flow_boundary {D} _.
Arguments outlet {D} _.
Arguments terminal {D} _.
Arguments discrete_control {D} _.
Arguments pid_control {D} _.
Arguments user_demand {D} _.
Arguments level_demand {D} _.
Arguments edge {D} _.
Arguments model_fields_set {D} _.

(** An attribute value together with its class, which a Python object
    carries itself and [isinstance] inspects. *)
Inductive Attr (D : Type) :=
| AOptPath (p : option Path)
| ADatetime (t : datetime)
| APath (p : Path)
| AChild (cls : string) (c : ChildModel)
| AMultiNode (cls : string) (sub : MultiNodeModel D)
| AEdge (e : EdgeTable).
Arguments AOptPath {D} _.
Arguments ADatetime {D} _.
Arguments APath {D} _.
Arguments AChild {D} _ _.
Arguments AMultiNode {D} _ _.
Arguments AEdge {D} _.

(** [Model.model_fields.keys()]: the inherited [filepath] first, then the
    fields in declaration order. *)
Definition model_fields : list string :=
  [ "filepath"; "starttime"; "endtime"; "input_dir"; "results_dir";
    "allocation"; "logging"; "solver"; "results";
    "basin"; "linear_resistance"; "manning_resistance";
    "tabulated_rating_curve"; "fractional_flow"; "pump"; "level_boundary";
    "flow_boundary"; "outlet"; "terminal"; "discrete_control"; "pid_control";
    "user_demand"; "level_demand"; "edge" ].

Section Reflection.
Context {D : Type}.

Definition attributes (m : Model D) : list (string * Attr D) :=
  [ ("filepath", AOptPath (filepath m));
    ("starttime", ADatetime (starttime m));
    ("endtime", ADatetime (endtime m));
    ("input_dir", APath (input_dir m));
    ("results_dir", APath (results_dir m));
    ("allocation", AChild "Allocation" (allocation m));
    ("logging", AChild "Logging" (logging m));
    ("solver", AChild "Solver" (solver m));
    ("results", AChild "Results" (results m));
    ("basin", AMultiNode "Basin" (basin m));
    ("linear_resistance", AMultiNode "LinearResistance" (linear_resistance m));
    ("manning_resistance", AMultiNode "ManningResistance" (manning_resistance m));
    ("tabulated_rating_curve",
      AMultiNode "TabulatedRatingCurve" (tabulated_rating_curve m));
    ("fractional_flow", AMultiNode "FractionalFlow" (fractional_flow m));
    ("pump", AMultiNode "Pump" (pump m));
    ("level_boundary", AMultiNode "LevelBoundary" (level_boundary m));
    ("flow_boundary", AMultiNode "FlowBoundary" (flow_boundary m));
    ("outlet", AMultiNode "Outlet" (outlet m));
    ("terminal", AMultiNode "Terminal" (terminal m));
    ("discrete_control", AMultiNode "DiscreteControl" (discrete_control m));
    ("pid_control", AMultiNode "PidControl" (pid_control m));
    ("user_demand", AMultiNode "UserDemand" (user_demand m));
    ("level_demand", AMultiNode "LevelDemand" (level_demand m));
    ("edge", AEdge (edge m)) ].

(** [getattr(self, key)] *)
Definition getattr (m : Model D) (key : string) : option (Attr D) :=
  dict_get key (attributes m).

(** [df.empty] for the representation [D]. *)
Variable df_empty : D → bool.

(** [attr.node.df is not None and not attr.node.df.empty] *)
Definition populated (sub : MultiNodeModel D) : bool :=
  match df (node sub) with
  | Some d => negb (df_empty d)
  | None => false
  end.

(** [Model._nodes]: the generator is the list of what it yields, each
    object with its class. *)
Definition _nodes (m : Model D) : list (string * MultiNodeModel D) :=
  flat_map (λ key,
    match getattr m key with
    | Some (AMultiNode cls attr) =>
        if populated attr then [(cls, attr)] else []
    | _ => []
    end) model_fields.

End Reflection.

(** [Model.model_post_init]: the directory fields always count as set. *)
Definition model_post_init {D} (m : Model D) : Model D :=
  mkModel (filepath m) (starttime m) (endtime m) (input_dir m) (results_dir m)
    (allocation m) (logging m) (solver m) (results m)
    (basin m) (linear_resistance m) (manning_resistance m)
    (tabulated_rating_curve m) (fractional_flow m) (pump m) (level_boundary m)
    (flow_boundary m) (outlet m) (terminal m) (discrete_control m)
    (pid_control m) (user_demand m) (level_demand m) (edge m)
    (model_fields_set m ∪ {["input_dir"; "results_dir"]}).

(** ** [__repr__] *)

Definition INDENT : string := "    ".

Definition newline : string := String "010"%char "".

Section Repr.
Context {D : Type}.

(** [repr(attr)] of an attribute, as its class defines it. *)
Variable repr : Attr D → string.

(** The lines the loop of [Model.__repr__] appends to [content] for the
    field names [names], or [None] when one of the names is no attribute
    of the model ([getattr] raises). *)
Fixpoint repr_fields (m : Model D) (names : list string) : option (list string) :=
  match names with
  | [] => Some []
  | field :: rest =>
      attr ← getattr m field;
      let line :=
        match attr with
        | AEdge _ => [INDENT +:+ field +:+ "=Edge(...),"]
        | AMultiNode _ sub =>
            match df (node sub) with
            | None => []
            | Some _ => [INDENT +:+ field +:+ "=" +:+ repr attr +:+ ","]
            end
        | _ => [INDENT +:+ field +:+ "=" +:+ repr attr +:+ ","]
        end in
      lines ← repr_fields m rest;
      Some (line ++ lines)
  end.

(** [Model.__repr__], for the names that [self.fields()] returns. *)
Definition __repr__ (fields : list string) (m : Model D) : option string :=
  lines ← repr_fields m fields;
  Some (String.concat newline (["ribasim.Model("] ++ lines ++ [")"])).

End Repr.

(** ** [node_table] over a heap of data frames *)

Abbreviation loc := positive (only parsing).
Abbreviation Heap := (gmap positive (list NodeRow)) (only parsing).

(** The rows of the frame at a location. *)
Definition frame (h : Heap) (l : loc) : list NodeRow := default [] (h !! l).

Definition frame_empty (h : Heap) (l : loc) : bool :=
  match frame h l with [] => true | _ => false end.

(** [pd.concat(chunks, ignore_index=True)]: [None] entries are dropped,
    nothing to concatenate is a [ValueError], and the result is a new frame
    holding the rows of the chunks in order. *)
Definition pd_concat (chunks : list (option loc)) (h : Heap)
  : (Exn + loc) * Heap :=
  match omap id chunks with
  | [] => (inl ValueError, h)
  | ls =>
      let l := fresh (dom h) in
      (inr l, <[l := concat (frame h <$> ls)]> h)
  end.

(** Modelled from the spec: [NodeTable.sort] is declared in
    [ribasim.geometry.node]; it reorders the rows of its frame in place by
    node ID ascending, stable for ties. *)
Fixpoint insert_by_id (r : NodeRow) (rows : list NodeRow) : list NodeRow :=
  match rows with
  | [] => [r]
  | r' :: rows' =>
      if node_id r <=? node_id r' then r :: r' :: rows'
      else r' :: insert_by_id r rows'
  end.

Fixpoint sort_by_id (rows : list NodeRow) : list NodeRow :=
  match rows with
  | [] => []
  | r :: rows' => insert_by_id r (sort_by_id rows')
  end.

Definition NodeTable_sort (t : NodeTable loc) (h : Heap) : Heap :=
  match df t with
  | Some l => match h !! l with
              | Some rows => <[l := sort_by_id rows]> h
              | None => h
              end
  | None => h
  end.

(** [Model.node_table] *)
Definition node_table (m : Model loc) (h : Heap)
  : (Exn + NodeTable loc) * Heap :=
  let df_chunks := (λ nd, df (node nd.2)) <$> _nodes (frame_empty h) m in
  match pd_concat df_chunks h with
  | (inl e, h') => (inl e, h')
  | (inr l, h') =>
      let node_table := mkNodeTable (Some l) in
      (inr node_table, NodeTable_sort node_table h')
  end.

(** ** Persistence *)

(** [ribasim.__version__] *)
Definition __version__ : string := "0.2.0".

Abbreviation Frame := (list NodeRow) (only parsing).

(** [df.empty] on a frame value. *)
Definition rows_empty (d : Frame) : bool :=
  match d with [] => true | _ => false end.

(** [for x in xs: body(x)] *)
Fixpoint for_each {A} (xs : list A) (body : A → IO unit) : IO unit :=
  match xs with
  | [] => ret tt
  | x :: xs' => let* _ := body x in for_each xs' body
  end.

Definition set_node_layer (cls : string) (rows : Frame) (db : Database)
  : Database :=
  mkDatabase (<[cls := rows]> (node_layers db)) (edge_layer db) (param_layers db).

Definition set_edge_layer (rows : list EdgeRow) (db : Database) : Database :=
  mkDatabase (node_layers db) (Some rows) (param_layers db).

Definition set_param_layer (cls t : string) (rows : list ParamRow)
    (db : Database) : Database :=
  mkDatabase (node_layers db) (edge_layer db)
             (<[(cls, t) := rows]> (param_layers db)).

(** Modelled from the spec: writing one table into its named layer of the
    geometry store ([TableModel._save] of [ribasim.input_base]). The store
    is the one recorded in the context; it is created by the first layer
    written to it. *)
Definition save_layer (upd : Database → Database) : IO unit :=
  let* w := get_world in
  match context_file_loading w !! "database" with
  | None => raise KeyError
  | Some db_path =>
      match fs w !! db_path with
      | None =>
          if is_dir (fs w) (pathlib.parent db_path)
          then put_fs (<[db_path := Gpkg (upd empty_database)]> (fs w))
          else raise FileNotFoundError
      | Some (Gpkg db) => put_fs (<[db_path := Gpkg (upd db)]> (fs w))
      | Some _ => raise IsADirectoryError
      end
  end.

(** Modelled from the spec: [EdgeTable._save] writes the edge table, when
    it is populated, to the edge layer. *)
Definition EdgeTable_save (e : EdgeTable) (directory input_dir : Path)
  : IO unit :=
  match edge_df e with
  | Some rows => save_layer (set_edge_layer rows)
  | None => ret tt
  end.

(** Modelled from the spec: [MultiNodeModel._save] writes each owned table
    that is populated to its own named layer. *)
Definition MultiNodeModel_save (cls : string) (sub : MultiNodeModel Frame)
    (directory input_dir : Path) : IO unit :=
  let* _ := match df (node sub) with
            | Some rows => save_layer (set_node_layer cls rows)
            | None => ret tt
            end in
  for_each (tables sub) (λ t,
    match t.2 with
    | Some rows => save_layer (set_param_layer cls t.1 rows)
    | None => ret tt
    end).

(** Unimplemented checks *)

Definition validate_model_node_field_ids {D} (self : Model D) : IO unit :=
  raise NotImplementedError.

Definition validate_model_node_ids {D} (self : Model D) : IO unit :=
  raise NotImplementedError.

Definition validate_model {D} (self : Model D) : IO unit :=
  let* _ := validate_model_node_field_ids self in
  validate_model_node_ids self.

Definition plot_control_listen {D Ax} (self : Model D) (ax : Ax) : IO unit :=
  raise NotImplementedError.

Section Persistence.

(** The serializers of the node classes and of the edge table, the
    declared fields (with their defaults) of the settings classes and the
    declared parameter tables of the node classes belong to
    [ribasim.config] and [ribasim.geometry]; they are parameters here. *)
Variable dump_node : string → MultiNodeModel Frame → list (string * Scalar).
Variable dump_edge : EdgeTable → list (string * Scalar).
Variable class_fields : string → list (string * Scalar).
Variable table_names : string → list string.

(** [exclude_none=True] *)
Definition exclude_none (d : list (string * Scalar)) : list (string * Scalar) :=
  filter (λ kv, kv.2 ≠ SNone) d.

(** [model_dump(exclude_unset=True, exclude_none=True)] of a settings
    group. *)
Definition dump_child (c : ChildModel) : list (string * Scalar) :=
  filter (λ kv, kv.1 ∈ child_fields_set c ∧ kv.2 ≠ SNone) (child_fields c).

(** [Model.serialize_path] *)
Definition serialize_path (path : Path) : string := pathlib.str path.

(** The dumped value of one field. Modelled from the spec: the inherited
    [filepath] field is not part of the configuration file. *)
Definition serialize (a : Attr Frame) : option Value :=
  match a with
  | AOptPath _ => None
  | ADatetime t => Some (VScalar (SDatetime t))
  | APath p => Some (VScalar (SStr (serialize_path p)))
  | AChild _ c => Some (VDict (dump_child c))
  | AMultiNode cls sub => Some (VDict (exclude_none (dump_node cls sub)))
  | AEdge e => Some (VDict (exclude_none (dump_edge e)))
  end.

(** [self.model_dump(exclude_unset=True, exclude_none=True, by_alias=True)] *)
Definition model_dump (m : Model Frame) : PyDict :=
  flat_map (λ key,
    if decide (key ∈ model_fields_set m)
    then match getattr m key ≫= serialize with
         | Some v => [(key, v)]
         | None => []
         end
    else []) model_fields.

(** [Model._write_toml] *)
Definition _write_toml (m : Model Frame) (fn : Path) : IO Path :=
  let content := model_dump m in
  let content := filter (λ x, truthy x.2) content in
  let content := dict_set "ribasim_version" (VScalar (SStr __version__)) content in
  let* _ := open_wb fn (TomlFile content) in
  ret fn.

(** [Model._save] *)
Definition _save (m : Model Frame) (directory input_dir : Path) : IO unit :=
  let db_path :=
    pathlib.joinpath (pathlib.joinpath directory input_dir)
                     (pathlib.of_str "database.gpkg") in
  let* _ := mkdir (pathlib.parent db_path) in
  let* _ := unlink db_path in
  let* _ := context_setitem "database" db_path in
  let* _ := EdgeTable_save (edge m) directory input_dir in
  for_each (_nodes rows_empty m)
           (λ sub, MultiNodeModel_save sub.1 sub.2 directory input_dir).

(** [Model.write] *)
Definition write (m : Model Frame) (filepath : Path) : IO Path :=
  if negb (String.eqb (pathlib.suffix filepath) ".toml")
  then raise ValueError
  else
    let* _ := context_set ∅ in
    let directory := pathlib.parent filepath in
    let* _ := mkdir directory in
    let* _ := _save m directory (input_dir m) in
    let* fn := _write_toml m filepath in
    let* _ := context_set ∅ in
    ret fn.

(** [Model._load] *)
Definition _load (filepath : option Path) : IO PyDict :=
  let* _ := context_set ∅ in
  match filepath with
  | Some filepath =>
      let* config := open_rb_toml filepath in
      let* input :=
        match dict_get "input_dir" config with
        | None => ret (pathlib.of_str ".")
        | Some (VScalar (SStr s)) => ret (pathlib.of_str s)
        | Some _ => raise TypeError
        end in
      let directory := pathlib.joinpath (pathlib.parent filepath) input in
      let* _ := context_setitem "directory" directory in
      let* _ := context_setitem "database"
                  (pathlib.joinpath directory (pathlib.of_str "database.gpkg")) in
      ret config
  | None => ret []
  end.

(** [Model.reset_contextvar] *)
Definition reset_contextvar (m : Model Frame) : IO (Model Frame) :=
  let* _ := context_set ∅ in
  ret m.

(** *** Construction from a parsed configuration *)

(** Modelled from the spec: [FileModel] and the field validation of
    pydantic are not part of this module. A settings group is built from
    its section: the keys of the section are the explicitly set fields,
    every other declared field takes its default. *)
Definition ChildModel_validate (cls : string) (d : list (string * Scalar))
  : ChildModel :=
  mkChildModel
    ((λ kv, (kv.1, default kv.2 (dict_get kv.1 d))) <$> class_fields cls)
    (list_to_set (filter (λ k, is_Some (dict_get k d)) (class_fields cls).*1)).

Definition validate_datetime (key : string) (config : PyDict)
  : Exn + datetime :=
  match dict_get key config with
  | Some (VScalar (SDatetime t)) => inr t
  | _ => inl ValidationError
  end.

Definition validate_path (key : string) (dflt : Path) (config : PyDict)
  : Exn + Path :=
  match dict_get key config with
  | None => inr dflt
  | Some (VScalar (SStr s)) => inr (pathlib.of_str s)
  | Some _ => inl ValidationError
  end.

Definition validate_child (cls key : string) (config : PyDict)
  : Exn + ChildModel :=
  match dict_get key config with
  | None => inr (ChildModel_validate cls [])
  | Some (VDict d) => inr (ChildModel_validate cls d)
  | Some _ => inl ValidationError
  end.

(** Modelled from the spec: reading hydrates every table from its layer
    of the geometry store. A node table without a layer is created empty
    (model.py, comment in [_nodes]); other tables without a layer stay
    absent. *)
Definition hydrate_node (db : Database) (cls : string) : MultiNodeModel Frame :=
  mkMultiNodeModel
    (mkNodeTable (Some (default [] (node_layers db !! cls))))
    ((λ t, (t, param_layers db !! (cls, t))) <$> table_names cls).

Definition hydrate_edge (db : Database) : EdgeTable :=
  mkEdgeTable (edge_layer db).

(** Modelled from the spec: on [read] every table is hydrated from the
    geometry store that the load context names (4.1, 4.3). The spec does
    not say what hydration does when there is no store file; such a store
    is taken to have no layers. *)
Definition open_store : IO Database :=
  let* w := get_world in
  match context_file_loading w !! "database" with
  | None => ret empty_database
  | Some db_path =>
      match fs w !! db_path with
      | None => ret empty_database
      | Some (Gpkg db) => ret db
      | Some _ => raise IsADirectoryError
      end
  end.

(** Modelled from the spec: [Model(filepath=...)] parses the file with
    [_load], validates the fields, hydrates the tables, and runs
    [model_post_init] and the [mode="after"] validators, of which
    [reset_contextvar] clears the context. A field that fails validation
    raises before any of the latter run. *)
Definition Model_init (fp : Path) : IO (Model Frame) :=
  let* config := _load (Some fp) in
  let* t0 := lift_result (validate_datetime "starttime" config) in
  let* t1 := lift_result (validate_datetime "endtime" config) in
  let* idir := lift_result (validate_path "input_dir" (pathlib.of_str ".") config) in
  let* rdir := lift_result (validate_path "results_dir" (pathlib.of_str "results") config) in
  let* c_allocation := lift_result (validate_child "Allocation" "allocation" config) in
  let* c_logging := lift_result (validate_child "Logging" "logging" config) in
  let* c_solver := lift_result (validate_child "Solver" "solver" config) in
  let* c_results := lift_result (validate_child "Results" "results" config) in
  let* db := open_store in
  let m :=
    mkModel (Some fp) t0 t1 idir rdir
      c_allocation c_logging c_solver c_results
      (hydrate_node db "Basin")
      (hydrate_node db "LinearResistance")
      (hydrate_node db "ManningResistance")
      (hydrate_node db "TabulatedRatingCurve")
      (hydrate_node db "FractionalFlow")
      (hydrate_node db "Pump")
      (hydrate_node db "LevelBoundary")
      (hydrate_node db "FlowBoundary")
      (hydrate_node db "Outlet")
      (hydrate_node db "Terminal")
      (hydrate_node db "DiscreteControl")
      (hydrate_node db "PidControl")
      (hydrate_node db "UserDemand")
      (hydrate_node db "LevelDemand")
      (hydrate_edge db)
      ({["filepath"]} ∪
       list_to_set (filter (λ k, is_Some (dict_get k config)) model_fields)) in
  reset_contextvar (model_post_init m).

(** [Model.read] *)
Definition read (filepath : Path) : IO (Model Frame) :=
  Model_init filepath.

End Persistence.

(** * Notions used in the statements *)

(** Adjacent rows are in ascending order of their IDs. *)
Definition ascending (rows : list NodeRow) : Prop :=
  ∀ (i : nat) r1 r2,
    rows !! i = Some r1 → rows !! S i = Some r2 → node_id r1 ≤ node_id r2.

(** The frames of the populated sub-models, in generator order. *)
Definition chunk_rows (h : Heap) (m : Model loc) : list (list NodeRow) :=
  (λ nd, match df (node nd.2) with Some l => frame h l | None => [] end)
    <$> _nodes (frame_empty h) m.

(** The directories [mkdir] walks through. *)
Fixpoint ancestors_from (anchor : bool) (done todo : list string) : list Path :=
  match todo with
  | [] => []
  | c :: rest =>
      mkPath anchor (done ++ [c]) :: ancestors_from anchor (done ++ [c]) rest
  end.

Definition ancestors (p : Path) : list Path :=
  ancestors_from (pathlib.absolute p) [] (pathlib.parts p).

(** A file system in which the store at [db] holds [cur]. *)
Definition store_fs (f : gmap Path FsNode) (db : Path) (cur : option Database)
  : gmap Path FsNode :=
  match cur with
  | None => f
  | Some d => <[db := Gpkg d]> f
  end.

Definition store_world (f : gmap Path FsNode) (db : Path)
    (ctx : gmap string Path) (cur : option Database) : World :=
  mkWorld (store_fs f db cur) ctx.

(** The store after one more layer has been written. *)
Definition layer_step (cur : option Database) (upd : Database → Database)
  : option Database :=
  Some (upd (default empty_database cur)).

Definition param_step (cls : string) (cur : option Database)
    (t : string * option (list ParamRow)) : option Database :=
  match t.2 with
  | Some rows => layer_step cur (set_param_layer cls t.1 rows)
  | None => cur
  end.

Definition node_step (cur : option Database)
    (nd : string * MultiNodeModel Frame) : option Database :=
  foldl (param_step nd.1)
    (match df (node nd.2) with
     | Some rows => layer_step cur (set_node_layer nd.1 rows)
     | None => cur
     end)
    (tables nd.2).

Definition edge_step (cur : option Database) (e : EdgeTable)
  : option Database :=
  match edge_df e with
  | Some rows => layer_step cur (set_edge_layer rows)
  | None => cur
  end.

(** The store that [_save] leaves behind, starting from no store. *)
Definition stored (m : Model Frame) : option Database :=
  foldl node_step (edge_step None (edge m)) (_nodes rows_empty m).

(** The location of the geometry store. *)
Definition database_path (directory input_dir : Path) : Path :=
  pathlib.joinpath (pathlib.joinpath directory input_dir)
                   (pathlib.of_str "database.gpkg").

(** No [None] inside a value. *)
Definition none_free (v : Value) : Prop :=
  match v with
  | VScalar s => s ≠ SNone
  | VDict d => ∀ k s, (k, s) ∈ d → s ≠ SNone
  end.

(** The sub-models of the node classes, in field order. *)
Definition MultiNodeModels {D} (m : Model D) : list (string * MultiNodeModel D) :=
  omap (λ kv, match kv.2 with
              | AMultiNode cls sub => Some (cls, sub)
              | _ => None
              end) (attributes m).

(** The rows of a node table; an absent table has none. *)
Definition df_rows (t : NodeTable Frame) : Frame := default [] (df t).

Definition node_rows (m : Model Frame) : list (string * Frame) :=
  (λ nd, (nd.1, df_rows (node nd.2))) <$> MultiNodeModels m.

Definition edge_rows (m : Model Frame) : list EdgeRow :=
  default [] (edge_df (edge m)).

(** Per node class, the same rows up to their order. *)
Definition same_node_rows (m1 m2 : Model Frame) : Prop :=
  Forall2 (λ a b, a.1 = b.1 ∧ a.2 ≡ₚ b.2) (node_rows m1) (node_rows m2).

Definition cur_nodes (cur : option Database) : gmap string Frame :=
  node_layers (default empty_database cur).

Definition cur_edge (cur : option Database) : option (list EdgeRow) :=
  edge_layer (default empty_database cur).

(** A parsed path without [..] components: for such paths under one
    anchor, being the same file is being the same list of components. *)
Definition dotdot_free (p : Path) : Prop :=
  pathlib.Path_wf p ∧ ".." ∉ pathlib.parts p.

Global Instance dotdot_free_dec p : Decision (dotdot_free p).
Proof. unfold dotdot_free. apply _. Defined.


(** The parameter layers of a store. *)
Definition cur_params (cur : option Database)
  : gmap (string * string) (list ParamRow) :=
  param_layers (default empty_database cur).

Section Statements.
Variable dump_node : string → MultiNodeModel Frame → list (string * Scalar).
Variable dump_edge : EdgeTable → list (string * Scalar).
Variable class_fields : string → list (string * Scalar).
Variable table_names : string → list string.

(** What [_write_toml] writes. *)
Definition toml_content (m : Model Frame) : PyDict :=
  dict_set "ribasim_version" (VScalar (SStr __version__))
    (filter (λ x, truthy x.2) (model_dump dump_node dump_edge m)).

(** The dumped value of a field, if the dump has one. *)
Definition dump_field (m : Model Frame) (key : string) : option Value :=
  if decide (key ∈ model_fields_set m)
  then getattr m key ≫= serialize dump_node dump_edge
  else None.

(** A settings group conforms to its class: it has the declared fields,
    and a field that is unset, or set to [None], holds the declared
    default. *)
Definition child_ok (cls : string) (c : ChildModel) : Prop :=
  (child_fields c).*1 = (class_fields cls).*1
  ∧ NoDup (class_fields cls).*1
  ∧ Forall (λ kv, kv.1 ∉ child_fields_set c ∨ kv.2 = SNone →
                  kv ∈ class_fields cls)
           (child_fields c).

(** A settings group that does not count as set on the model holds the
    defaults: it was made by the field's [default_factory], and an
    assignment to one of its fields goes through the parent link that
    [set_node_parent] establishes, which makes the group count as set on
    the model (the classes of the groups are declared outside this
    module). *)
Definition group_ok (m : Model Frame) (key cls : string) (c : ChildModel) : Prop :=
  child_ok cls c
  ∧ (key ∉ model_fields_set m → child_fields c = class_fields cls).

(** The invariant of a [Model] object, which the record type alone does
    not enforce: the required fields and, after [model_post_init], the
    directory fields count as set; the directories are parsed paths; and
    the settings groups conform to their classes. *)
Definition Model_valid (m : Model Frame) : Prop :=
  "starttime" ∈ model_fields_set m
  ∧ "endtime" ∈ model_fields_set m
  ∧ "input_dir" ∈ model_fields_set m
  ∧ "results_dir" ∈ model_fields_set m
  ∧ pathlib.Path_wf (input_dir m)
  ∧ pathlib.Path_wf (results_dir m)
  ∧ group_ok m "allocation" "Allocation" (allocation m)
  ∧ group_ok m "logging" "Logging" (logging m)
  ∧ group_ok m "solver" "Solver" (solver m)
  ∧ group_ok m "results" "Results" (results m).

Global Instance child_ok_dec cls c : Decision (child_ok cls c).
Proof. unfold child_ok. apply _. Defined.

Global Instance group_ok_dec m key cls c : Decision (group_ok m key cls c).
Proof. unfold group_ok. apply _. Defined.

Global Instance Model_valid_dec m : Decision (Model_valid m).
Proof. unfold Model_valid. apply _. Defined.

(** The model that [read] builds from the files of a [write]. *)
Definition reread (m : Model Frame) (p : Path) (ca cl cs cr : ChildModel)
  : Model Frame :=
  let db := default empty_database (stored m) in
  model_post_init
    (mkModel (Some p) (starttime m) (endtime m) (input_dir m) (results_dir m)
       ca cl cs cr
       (hydrate_node table_names db "Basin")
       (hydrate_node table_names db "LinearResistance")
       (hydrate_node table_names db "ManningResistance")
       (hydrate_node table_names db "TabulatedRatingCurve")
       (hydrate_node table_names db "FractionalFlow")
       (hydrate_node table_names db "Pump")
       (hydrate_node table_names db "LevelBoundary")
       (hydrate_node table_names db "FlowBoundary")
       (hydrate_node table_names db "Outlet")
       (hydrate_node table_names db "Terminal")
       (hydrate_node table_names db "DiscreteControl")
       (hydrate_node table_names db "PidControl")
       (hydrate_node table_names db "UserDemand")
       (hydrate_node table_names db "LevelDemand")
       (hydrate_edge db)
       ({["filepath"]} ∪
        list_to_set (filter (λ k, is_Some (dict_get k (toml_content m)))
                            model_fields))).

End Statements.

(** A call of one of the two entry points, and its outcome. *)
Inductive Call :=
| CallWrite (m : Model Frame) (filepath : Path)
| CallRead (filepath : Path).

Section Calls.
Variable dump_node : string → MultiNodeModel Frame → list (string * Scalar).
Variable dump_edge : EdgeTable → list (string * Scalar).
Variable class_fields : string → list (string * Scalar).
Variable table_names : string → list string.

Definition run_call (c : Call) : IO (Path + Model Frame) :=
  match c with
  | CallWrite m filepath =>
      let* fn := write dump_node dump_edge m filepath in ret (inl fn)
  | CallRead filepath =>
      let* m := read class_fields table_names filepath in ret (inr m)
  end.

End Calls.

(** ** Example models *)

Module Scenario.

Definition unused {D} : MultiNodeModel D := mkMultiNodeModel (mkNodeTable None) [].

(** Settings classes for the examples: [Solver] declares three fields, the
    other groups none. The floats are 1e-6 and 1e-9. *)
Definition class_fields (cls : string) : list (string * Scalar) :=
  if decide (cls = "Solver")
  then [("algorithm", SStr "QNDF"); ("dt", SNone);
        ("abstol", SFloat 4517329193108106637)]
  else [].

Definition table_names (cls : string) : list string := ["static"].

Definition dump_node (cls : string) (sub : MultiNodeModel Frame)
  : list (string * Scalar) := [].

Definition dump_edge (e : EdgeTable) : list (string * Scalar) := [].

Definition no_settings : ChildModel := mkChildModel [] ∅.

Definition default_solver : ChildModel := mkChildModel (class_fields "Solver") ∅.

(** [Solver(abstol=1e-9)] *)
Definition tight_solver : ChildModel :=
  mkChildModel [("algorithm", SStr "QNDF"); ("dt", SNone);
                ("abstol", SFloat 4472406533629990549)]
               {["abstol"]}.

Definition basin_rows : list NodeRow :=
  [mkNodeRow 3 "Basin" None None; mkNodeRow 1 "Basin" (Some "upstream") None].
Definition pump_rows : list NodeRow := [mkNodeRow 2 "Pump" None None].
Definition flow_edge : EdgeRow := mkEdgeRow 1 1 2 "flow" None.

(** A model with two basin nodes (IDs 3 and 1), one pump node (ID 2) and
    one edge, over a node data frame representation [D]; [given] are the
    fields passed to the constructor. *)
Definition model_with {D} (given : gset string) (solver : ChildModel)
    (basin_df pump_df : option D) : Model D :=
  model_post_init
    (mkModel None 20200101 20201231 (mkPath false []) (mkPath false ["results"])
       no_settings no_settings solver no_settings
       (mkMultiNodeModel (mkNodeTable basin_df) [])
       unused unused unused unused
       (mkMultiNodeModel (mkNodeTable pump_df) [])
       unused unused unused unused unused unused unused unused
       (mkEdgeTable (Some [flow_edge]))
       given).

Definition given_fields : gset string :=
  {["starttime"; "endtime"; "basin"; "pump"; "edge"]}.

(** The frames of the pump and of the basins live at locations 1 and 2. *)
Definition heap : Heap := {[ 1%positive := pump_rows; 2%positive := basin_rows ]}.
Definition model_refs : Model loc :=
  model_with given_fields default_solver (Some 2%positive) (Some 1%positive).

(** A model none of whose node classes is used. *)
Definition model_unused : Model loc :=
  model_with given_fields default_solver None None.

(** The model with frame values, built with [solver=Solver(abstol=1e-9)]. *)
Definition model : Model Frame :=
  model_with ({["solver"]} ∪ given_fields) tight_solver
             (Some basin_rows) (Some pump_rows).

(** The model built without a solver: the solver group is the default
    one and does not count as set. *)
Definition model_default : Model Frame :=
  model_with given_fields default_solver (Some basin_rows) (Some pump_rows).

Definition toml_path : Path := mkPath false ["model"; "model.toml"].
Definition csv_path : Path := mkPath false ["model"; "model.csv"].

(** An empty working directory, and one in which the target of the write
    exists as a directory. *)
Definition world : World := mkWorld ∅ ∅.
Definition world_blocked : World :=
  mkWorld {[ mkPath false ["model"] := Dir; toml_path := Dir ]} ∅.

End Scenario.

(** * Properties *)

(** ** Paths *)

Example suffix_toml :
  pathlib.suffix (mkPath false ["model"; "model.toml"]) = ".toml".
Proof. reflexivity. Qed.

Example suffix_hidden : pathlib.suffix (mkPath false [".toml"]) = "".
Proof. reflexivity. Qed.

Example suffix_trailing_dot : pathlib.suffix (mkPath false ["model."]) = "".
Proof. reflexivity. Qed.

Example str_of_str :
  pathlib.of_str "/a//b/./c.toml" = mkPath true ["a"; "b"; "c.toml"]
  ∧ pathlib.str (mkPath true ["a"; "b"; "c.toml"]) = "/a/b/c.toml"
  ∧ pathlib.str (mkPath false []) = "."
  ∧ pathlib.of_str "." = mkPath false [].
Proof. repeat split; reflexivity. Qed.

(** ** Sorting by node ID *)

Section Sorting.

Lemma insert_by_id_perm r rows : insert_by_id r rows ≡ₚ r :: rows.
Proof.
  induction rows as [|r' rows IH]; simpl; [done|].
  destruct (node_id r <=? node_id r'); [done|].
  rewrite IH. apply Permutation_swap.
Qed.

Lemma sort_by_id_perm rows : sort_by_id rows ≡ₚ rows.
Proof.
  induction rows as [|r rows IH]; simpl; [done|].
  by rewrite insert_by_id_perm, IH.
Qed.

Lemma ascending_cons r r' rows :
  node_id r ≤ node_id r' → ascending (r' :: rows) → ascending (r :: r' :: rows).
Proof.
  intros Hle Hasc [|i] r1 r2 H1 H2; simpl in *.
  - by simplify_eq.
  - by apply (Hasc i).
Qed.

Lemma ascending_tail r rows : ascending (r :: rows) → ascending rows.
Proof. intros Hasc i r1 r2 H1 H2. by apply (Hasc (S i)). Qed.

Lemma ascending_single r : ascending [r].
Proof. intros [|i] r1 r2 H1 H2; simpl in *; done. Qed.

Lemma insert_by_id_ascending r rows :
  ascending rows → ascending (insert_by_id r rows).
Proof.
  induction rows as [|r' rows IH]; intros Hasc; simpl.
  - apply ascending_single.
  - destruct (node_id r <=? node_id r') eqn:Hcmp.
    + apply ascending_cons; [lia | done].
    + pose proof (IH (ascending_tail _ _ Hasc)) as IH'.
      destruct rows as [|r'' rows]; simpl in *.
      * apply ascending_cons; [lia | done].
      * destruct (node_id r <=? node_id r'') eqn:Hcmp'.
        -- apply ascending_cons; [lia | done].
        -- apply ascending_cons; [|done].
           by apply (Hasc 0%nat).
Qed.

Lemma sort_by_id_ascending rows : ascending (sort_by_id rows).
Proof.
  induction rows as [|r rows IH]; simpl.
  - intros i r1 r2 H1; done.
  - by apply insert_by_id_ascending.
Qed.

End Sorting.

(** ** The generator [_nodes] *)

Section NodesFacts.
Context {D : Type} (df_empty : D → bool).

Lemma elem_of_nodes (m : Model D) cls sub :
  (cls, sub) ∈ _nodes df_empty m ↔
  (∃ key, key ∈ model_fields ∧ getattr m key = Some (AMultiNode cls sub))
  ∧ populated df_empty sub = true.
Proof.
  unfold _nodes. rewrite list_elem_of_In, in_flat_map. split.
  - intros (key & Hkey & Hin). apply list_elem_of_In in Hkey.
    destruct (getattr m key) as [[| | | |cls' sub'|]|] eqn:Hget;
      try (by apply list_elem_of_In, elem_of_nil in Hin).
    destruct (populated df_empty sub') eqn:Hpop;
      [|by apply list_elem_of_In, elem_of_nil in Hin].
    apply list_elem_of_In, list_elem_of_singleton in Hin. simplify_eq.
    split; [by exists key | done].
  - intros [(key & Hkey & Hget) Hpop]. exists key.
    split; [by apply list_elem_of_In|].
    rewrite Hget, Hpop. apply list_elem_of_In. by left.
Qed.

Lemma populated_spec (sub : MultiNodeModel D) :
  populated df_empty sub = true ↔
  ∃ d, df (node sub) = Some d ∧ df_empty d = false.
Proof.
  unfold populated. destruct (df (node sub)) as [d|]; split.
  - intros H. exists d. split; [done|]. by destruct (df_empty d).
  - intros (d' & ? & Hd). simplify_eq. by rewrite Hd.
  - done.
  - by intros (? & ? & ?).
Qed.

End NodesFacts.

(** ** [node_table] *)

Section NodeTableFacts.

Lemma omap_id_chunks {A} (f : A → option loc) (g : A → list NodeRow)
    (h : Heap) (xs : list A) :
  (∀ x, x ∈ xs → g x = match f x with Some l => frame h l | None => [] end) →
  concat (frame h <$> omap id (f <$> xs)) = concat (g <$> xs).
Proof.
  induction xs as [|x xs IH]; intros Hg; [done|].
  rewrite !fmap_cons. simpl. rewrite (Hg x) by left.
  specialize (IH (λ y Hy, Hg y (list_elem_of_further _ _ _ Hy))).
  destruct (f x) as [l|]; simpl; [f_equal|]; exact IH.
Qed.

Lemma nodes_chunks_Some (h : Heap) (m : Model loc) :
  Forall (λ nd, is_Some (df (node nd.2))) (_nodes (frame_empty h) m).
Proof.
  apply Forall_forall. intros [cls sub] Hin.
  apply elem_of_nodes in Hin as [_ Hpop].
  apply populated_spec in Hpop as (d & Hd & _). simpl. by rewrite Hd.
Qed.

Lemma omap_id_nil_inv {A} (f : A → option loc) (xs : list A) :
  Forall (λ x, is_Some (f x)) xs → omap id (f <$> xs) = [] → xs = [].
Proof.
  destruct xs as [|x xs]; [done|].
  intros Hall. apply Forall_cons in Hall as [[l Hl] _].
  simpl. by rewrite Hl.
Qed.

Lemma node_table_inr m h t h' :
  node_table m h = (inr t, h') →
  let l := fresh (dom h) in
  _nodes (frame_empty h) m ≠ []
  ∧ t = mkNodeTable (Some l)
  ∧ h' = <[l := sort_by_id (concat (chunk_rows h m))]> h.
Proof.
  intros Hrun. cbv zeta. unfold node_table, pd_concat in Hrun.
  destruct (omap id _) as [|l0 ls] eqn:Hchunks; [done|].
  injection Hrun as <- <-. split; [|split].
  - intros Hnil. by rewrite Hnil in Hchunks.
  - done.
  - unfold NodeTable_sort. cbn [df].
    rewrite lookup_insert_eq, insert_insert_eq.
    change (frame h l0 ++ concat (list_fmap _ _ (frame h) ls))
      with (concat (frame h <$> l0 :: ls)).
    rewrite <- Hchunks. unfold chunk_rows.
    by rewrite (omap_id_chunks _
      (λ nd, match df (node nd.2) with Some l => frame h l | None => [] end)).
Qed.

Lemma node_table_inl m h :
  _nodes (frame_empty h) m = [] → node_table m h = (inl ValueError, h).
Proof. unfold node_table. by intros ->. Qed.

Lemma node_table_some m h :
  _nodes (frame_empty h) m ≠ [] → ∃ t h', node_table m h = (inr t, h').
Proof.
  intros Hne. unfold node_table, pd_concat.
  destruct (omap id _) as [|l0 ls] eqn:Hchunks.
  - apply omap_id_nil_inv in Hchunks; [done|apply nodes_chunks_Some].
  - eauto.
Qed.

Lemma fresh_loc_not_in (h : Heap) : h !! fresh (dom h) = None.
Proof. apply not_elem_of_dom, is_fresh. Qed.

End NodeTableFacts.

(** ** Claims about [node_table] and [_nodes] *)

(** C2 (as the code has it): on a model without any populated node table
    [node_table] raises [ValueError], because [pd.concat] has nothing to
    concatenate; no table is returned and the heap is untouched. *)
Theorem node_table_unpopulated_raises (m : Model loc) (h : Heap) :
  _nodes (frame_empty h) m = [] →
  node_table m h = (inl ValueError, h).
Proof. apply node_table_inl. Qed.

Lemma node_table_unpopulated_raises_witness :
  _nodes (frame_empty ∅) Scenario.model_unused = []
  ∧ node_table Scenario.model_unused ∅ = (inl ValueError, ∅).
Proof.
  split; [reflexivity|].
  apply (node_table_unpopulated_raises Scenario.model_unused ∅). reflexivity.
Defined.

(** C2 (as the specification states it) fails: the model without populated
    node tables gets no table back. *)
Lemma node_table_unpopulated_no_table :
  _nodes (frame_empty ∅) Scenario.model_unused = []
  ∧ ¬ ∃ t h', node_table Scenario.model_unused ∅ = (inr t, h').
Proof.
  split; [reflexivity|].
  intros (t & h' & Hrun). rewrite node_table_inl in Hrun by reflexivity.
  discriminate.
Qed.

(** C3: the rows of the table returned by a successful [node_table] are in
    ascending order of node ID: [id[i] <= id[i+1]] for adjacent rows. *)
Theorem node_table_sorted (m : Model loc) (h h' : Heap) (t : NodeTable loc) :
  node_table m h = (inr t, h') →
  ∃ l rows, df t = Some l ∧ h' !! l = Some rows ∧
    ∀ (i : nat) r1 r2,
      rows !! i = Some r1 → rows !! S i = Some r2 → node_id r1 ≤ node_id r2.
Proof.
  intros (_ & -> & ->)%node_table_inr.
  eexists _, _. split; [done|]. split; [apply lookup_insert_eq|].
  apply sort_by_id_ascending.
Qed.

Lemma node_table_sorted_witness :
  ∃ t h', node_table Scenario.model_refs Scenario.heap = (inr t, h')
    ∧ ∃ l rows, df t = Some l ∧ h' !! l = Some rows ∧
        ∀ (i : nat) r1 r2,
          rows !! i = Some r1 → rows !! S i = Some r2 → node_id r1 ≤ node_id r2.
Proof.
  eexists _, _. split; [vm_compute; reflexivity|].
  eapply (node_table_sorted Scenario.model_refs Scenario.heap).
  vm_compute. reflexivity.
Defined.

Example node_table_scenario :
  ∃ h', node_table Scenario.model_refs Scenario.heap
          = (inr (mkNodeTable (Some 3%positive)), h')
    ∧ h' !! 3%positive
        = Some [mkNodeRow 1 "Basin" (Some "upstream") None;
                mkNodeRow 2 "Pump" None None;
                mkNodeRow 3 "Basin" None None]
    ∧ h' !! 2%positive = Some Scenario.basin_rows.
Proof. eexists. split; [vm_compute; reflexivity|]. by vm_compute. Qed.

(** C4: [_nodes] yields exactly the sub-models whose node data frame is
    present and non-empty, and the table returned by [node_table] consists
    of the rows of those sub-models and of no others. *)
Theorem node_table_only_populated (m : Model loc) (h : Heap) :
  (∀ cls sub,
     (cls, sub) ∈ _nodes (frame_empty h) m ↔
     (∃ key, key ∈ model_fields ∧ getattr m key = Some (AMultiNode cls sub))
     ∧ ∃ l, df (node sub) = Some l ∧ frame h l ≠ [])
  ∧ (∀ t h', node_table m h = (inr t, h') →
       ∃ l rows, df t = Some l ∧ h' !! l = Some rows
         ∧ rows ≡ₚ concat (chunk_rows h m)
         ∧ ∀ r, r ∈ rows →
             ∃ cls sub l0, (cls, sub) ∈ _nodes (frame_empty h) m
               ∧ df (node sub) = Some l0 ∧ frame h l0 ≠ [] ∧ r ∈ frame h l0).
Proof.
  assert (Hiff : ∀ cls sub,
     (cls, sub) ∈ _nodes (frame_empty h) m ↔
     (∃ key, key ∈ model_fields ∧ getattr m key = Some (AMultiNode cls sub))
     ∧ ∃ l, df (node sub) = Some l ∧ frame h l ≠ []).
  { intros cls sub. rewrite elem_of_nodes, populated_spec.
    split; intros [Hkey (l & Hl & Hne)]; (split; [done|]); exists l;
      (split; [done|]); unfold frame_empty in *; by destruct (frame h l). }
  split; [exact Hiff|].
  intros t h' (_ & -> & ->)%node_table_inr.
  eexists _, _. split; [done|]. split; [apply lookup_insert_eq|].
  split; [apply sort_by_id_perm|].
  intros r Hr. rewrite sort_by_id_perm in Hr.
  apply list_elem_of_In, in_concat in Hr as (chunk & Hchunk & Hr).
  apply list_elem_of_In in Hr, Hchunk.
  apply list_elem_of_fmap in Hchunk as ([cls sub] & -> & Hin).
  pose proof Hin as [_ (l0 & Hl0 & Hne)]%Hiff.
  simpl in Hr. rewrite Hl0 in Hr. by exists cls, sub, l0.
Qed.

Lemma node_table_only_populated_witness :
  ∃ t h', node_table Scenario.model_refs Scenario.heap = (inr t, h')
    ∧ ∃ l rows, df t = Some l ∧ h' !! l = Some rows
        ∧ rows ≡ₚ concat (chunk_rows Scenario.heap Scenario.model_refs)
        ∧ ∀ r, r ∈ rows →
            ∃ cls sub l0,
              (cls, sub) ∈ _nodes (frame_empty Scenario.heap) Scenario.model_refs
              ∧ df (node sub) = Some l0 ∧ frame Scenario.heap l0 ≠ []
              ∧ r ∈ frame Scenario.heap l0.
Proof.
  eexists _, _. split; [vm_compute; reflexivity|].
  eapply (proj2 (node_table_only_populated Scenario.model_refs Scenario.heap)).
  vm_compute. reflexivity.
Defined.

(** C10: a successful [node_table] is a pure query. The table it returns
    refers to a data frame that did not exist before the call; every data
    frame that existed, in particular the node data frame of every
    sub-model, holds the same rows afterwards. The model itself is only
    read: no attribute is rebound, which is why the embedding returns no
    new model. *)
Theorem node_table_pure_query (m : Model loc) (h h' : Heap) (t : NodeTable loc) :
  node_table m h = (inr t, h') →
  (∃ l, df t = Some l ∧ h !! l = None)
  ∧ (∀ l, is_Some (h !! l) → h' !! l = h !! l)
  ∧ (∀ key cls sub l,
       getattr m key = Some (AMultiNode cls sub) →
       df (node sub) = Some l → is_Some (h !! l) →
       frame h' l = frame h l).
Proof.
  intros (_ & -> & ->)%node_table_inr.
  assert (Hold : ∀ l, is_Some (h !! l) →
            <[fresh (dom h) := sort_by_id (concat (chunk_rows h m))]> h !! l = h !! l).
  { intros l [rows Hl]. apply lookup_insert_ne. intros <-.
    by rewrite fresh_loc_not_in in Hl. }
  split; [|split].
  - eexists. split; [done|apply fresh_loc_not_in].
  - exact Hold.
  - intros key cls sub l _ _ Hl. unfold frame. by rewrite Hold.
Qed.

Lemma node_table_pure_query_witness :
  ∃ t h', node_table Scenario.model_refs Scenario.heap = (inr t, h')
    ∧ (∃ l, df t = Some l ∧ Scenario.heap !! l = None)
    ∧ (∀ l, is_Some (Scenario.heap !! l) → h' !! l = Scenario.heap !! l)
    ∧ (∀ key cls sub l,
         getattr Scenario.model_refs key = Some (AMultiNode cls sub) →
         df (node sub) = Some l → is_Some (Scenario.heap !! l) →
         frame h' l = frame Scenario.heap l).
Proof.
  eexists _, _. split; [vm_compute; reflexivity|].
  eapply (node_table_pure_query Scenario.model_refs Scenario.heap).
  vm_compute. reflexivity.
Defined.

(** ** Unimplemented operations *)

(** C9: [validate_model], its two sub-checks and [plot_control_listen]
    raise [NotImplementedError] whatever the model holds, and do nothing
    else. *)
Theorem unimplemented_operations_raise {D Ax} (m : Model D) (ax : Ax) (w : World) :
  validate_model m w = (inl NotImplementedError, w)
  ∧ validate_model_node_field_ids m w = (inl NotImplementedError, w)
  ∧ validate_model_node_ids m w = (inl NotImplementedError, w)
  ∧ plot_control_listen m ax w = (inl NotImplementedError, w).
Proof. repeat split. Qed.

(** ** Running [IO] computations *)

Section IOFacts.

Lemma bind_inr {A B} (c : IO A) (k : A → IO B) w b w' :
  bind c k w = (inr b, w') ↔
  ∃ a w1, c w = (inr a, w1) ∧ k a w1 = (inr b, w').
Proof.
  unfold bind. destruct (c w) as [[e|a] w1]; split.
  - done.
  - by intros (? & ? & ? & ?).
  - eauto.
  - by intros (? & ? & [= -> ->] & ?).
Qed.

Lemma bind_run {A B} (c : IO A) (k : A → IO B) w a w1 :
  c w = (inr a, w1) → bind c k w = k a w1.
Proof. unfold bind. by intros ->. Qed.

Lemma lift_result_inr {A} (r : Exn + A) w a w' :
  lift_result r w = (inr a, w') ↔ r = inr a ∧ w' = w.
Proof.
  destruct r as [e|a0]; simpl; unfold raise, ret; split.
  - done.
  - by intros [? _].
  - by intros [= -> ->].
  - by intros [[= ->] ->].
Qed.

End IOFacts.

(** ** File operations *)

Section FileFacts.
Implicit Types (f : gmap Path FsNode) (p q : Path).

Lemma mkdir_from_keeps anchor done todo f f' q x :
  mkdir_from anchor done todo f = inr f' → f !! q = Some x → f' !! q = Some x.
Proof.
  revert done f. induction todo as [|c rest IH]; intros done f Hrun Hq; simpl in Hrun.
  - by simplify_eq.
  - destruct (f !! mkPath anchor (done ++ [c])) as [[| |]|] eqn:Hc; try done.
    + by eapply IH.
    + eapply IH; [done|]. rewrite lookup_insert_ne; [done|]. by intros <-; simplify_eq.
Qed.

Lemma mkdir_from_dirs anchor done todo f f' :
  mkdir_from anchor done todo f = inr f' →
  Forall (λ q, f' !! q = Some Dir) (ancestors_from anchor done todo).
Proof.
  revert done f. induction todo as [|c rest IH]; intros done f Hrun; simpl in *.
  - constructor.
  - destruct (f !! mkPath anchor (done ++ [c])) as [[| |]|] eqn:Hc; try done.
    + constructor; [|by eapply IH]. by eapply mkdir_from_keeps.
    + constructor; [|by eapply IH].
      eapply mkdir_from_keeps; [done|]. apply lookup_insert_eq.
Qed.

Lemma mkdir_from_existing anchor done todo f :
  Forall (λ q, f !! q = Some Dir) (ancestors_from anchor done todo) →
  mkdir_from anchor done todo f = inr f.
Proof.
  revert done. induction todo as [|c rest IH]; intros done Hall; simpl in *.
  - done.
  - apply Forall_cons in Hall as [-> Hall]. by apply IH.
Qed.

Lemma ancestors_from_last anchor done todo c :
  last (ancestors_from anchor done (todo ++ [c]))
  = Some (mkPath anchor (done ++ todo ++ [c])).
Proof.
  revert done. induction todo as [|c' rest IH]; intros done; simpl.
  - done.
  - rewrite last_cons, IH. by rewrite <- (assoc_L (++)).
Qed.

Lemma is_dir_ancestors f p :
  Forall (λ q, f !! q = Some Dir) (ancestors p) → is_dir f p = true.
Proof.
  destruct p as [anchor parts]. unfold ancestors, is_dir. simpl.
  destruct parts as [|c parts _] using rev_ind; [done|].
  intros Hall. pose proof (ancestors_from_last anchor [] parts c) as Hlast.
  apply last_Some_elem_of in Hlast.
  rewrite Forall_forall in Hall. apply Hall in Hlast. simpl in Hlast.
  rewrite Hlast. by destruct (parts ++ [c]).
Qed.

Lemma mkdir_inr p w w' :
  mkdir p w = (inr tt, w') ↔
  ∃ f', mkdir_from (pathlib.absolute p) [] (pathlib.parts p) (fs w) = inr f'
        ∧ w' = set_fs f' w.
Proof.
  unfold mkdir. rewrite bind_inr. split.
  - intros (w0 & w1 & [= <- <-] & (f' & w2 & [-> ->]%lift_result_inr & [= <-])%bind_inr).
    eauto.
  - intros (f' & Hrun & ->). exists w, w. split; [done|].
    apply bind_inr. exists f', w. by rewrite Hrun.
Qed.

Lemma unlink_inr p w w' :
  unlink p w = (inr tt, w') ↔
  fs w !! p ≠ Some Dir ∧ w' = set_fs (delete p (fs w)) w.
Proof.
  unfold unlink. rewrite bind_inr. split.
  - intros (w0 & w1 & [= <- <-] & Hrun).
    destruct (fs w !! p) as [[| |]|] eqn:Hp; try done;
      injection Hrun as <-; (split; [done|]); try done.
    rewrite delete_id by done. by destruct w.
  - intros [Hp ->]. exists w, w. split; [done|].
    destruct (fs w !! p) as [[| |]|] eqn:Hp'; try done.
    rewrite delete_id by done. by destruct w.
Qed.

Lemma open_wb_inr fn node w w' :
  open_wb fn node w = (inr tt, w') ↔
  fs w !! fn ≠ Some Dir ∧ is_dir (fs w) (pathlib.parent fn) = true
  ∧ w' = set_fs (<[fn := node]> (fs w)) w.
Proof.
  unfold open_wb. rewrite bind_inr. split.
  - intros (w0 & w1 & [= <- <-] & Hrun).
    destruct (fs w !! fn) as [[| |]|] eqn:Hp; try done;
      (destruct (is_dir (fs w) (pathlib.parent fn));
       [by injection Hrun as <-|by destruct (fs w !! pathlib.parent fn)]).
  - intros (Hp & Hdir & ->). exists w, w. split; [done|]. rewrite Hdir.
    by destruct (fs w !! fn) as [[| |]|].
Qed.

End FileFacts.

(** ** Saving tables into the geometry store *)

Section SaveFacts.
Implicit Types (f : gmap Path FsNode) (db : Path) (cur : option Database).

Lemma for_each_fold {A St} (xs : list A) (body : A → IO unit)
    (state : St → World) (step : St → A → St) :
  (∀ s x, x ∈ xs → body x (state s) = (inr tt, state (step s x))) →
  ∀ s, for_each xs body (state s) = (inr tt, state (foldl step s xs)).
Proof.
  induction xs as [|x xs IH]; intros Hbody s; simpl; [done|].
  rewrite (bind_run _ _ _ tt (state (step s x))) by (apply Hbody; by left).
  apply IH. intros s' y Hy. apply Hbody. by right.
Qed.

Context (f : gmap Path FsNode) (db : Path) (ctx : gmap string Path).
Hypothesis Hfree : f !! db = None.
Hypothesis Hparent : is_dir f (pathlib.parent db) = true.
Hypothesis Hctx : ctx !! "database" = Some db.

Lemma save_layer_run upd cur :
  save_layer upd (store_world f db ctx cur)
  = (inr tt, store_world f db ctx (layer_step cur upd)).
Proof.
  unfold save_layer, bind, get_world, store_world. simpl. rewrite Hctx.
  destruct cur as [d|]; simpl.
  - rewrite lookup_insert_eq. unfold put_fs, set_fs. simpl.
    by rewrite insert_insert_eq.
  - by rewrite Hfree, Hparent.
Qed.

Lemma EdgeTable_save_run e d1 d2 cur :
  EdgeTable_save e d1 d2 (store_world f db ctx cur)
  = (inr tt, store_world f db ctx (edge_step cur e)).
Proof.
  unfold EdgeTable_save, edge_step.
  destruct (edge_df e); [apply save_layer_run | done].
Qed.

Lemma MultiNodeModel_save_run cls sub d1 d2 cur :
  MultiNodeModel_save cls sub d1 d2 (store_world f db ctx cur)
  = (inr tt, store_world f db ctx (node_step cur (cls, sub))).
Proof.
  unfold MultiNodeModel_save, node_step. simpl.
  set (cur' := match df (node sub) with
               | Some rows => layer_step cur (set_node_layer cls rows)
               | None => cur
               end).
  rewrite (bind_run _ _ _ tt (store_world f db ctx cur')).
  - apply (for_each_fold _ _ (store_world f db ctx) (param_step cls)).
    intros s [t [rows|]] _; unfold param_step; simpl;
      [apply save_layer_run | done].
  - subst cur'. destruct (df (node sub)); [apply save_layer_run | done].
Qed.

Lemma save_tables_run (m : Model Frame) d1 d2 cur :
  bind (EdgeTable_save (edge m) d1 d2)
       (λ _, for_each (_nodes rows_empty m)
               (λ sub, MultiNodeModel_save sub.1 sub.2 d1 d2))
    (store_world f db ctx cur)
  = (inr tt, store_world f db ctx
               (foldl node_step (edge_step cur (edge m)) (_nodes rows_empty m))).
Proof.
  rewrite (bind_run _ _ _ tt _ (EdgeTable_save_run _ _ _ _)).
  apply (for_each_fold _ _ (store_world f db ctx) node_step).
  intros s [cls sub] _. apply MultiNodeModel_save_run.
Qed.

End SaveFacts.

(** ** [_save], [_write_toml] and [write] *)

Section WriteFacts.
Variable dump_node : string → MultiNodeModel Frame → list (string * Scalar).
Variable dump_edge : EdgeTable → list (string * Scalar).

Lemma database_path_parts d i :
  database_path d i
  = mkPath (pathlib.absolute (pathlib.joinpath d i))
           (pathlib.parts (pathlib.joinpath d i) ++ ["database.gpkg"]).
Proof. reflexivity. Qed.

Lemma parent_database_path d i :
  pathlib.parent (database_path d i) = pathlib.joinpath d i.
Proof.
  rewrite database_path_parts. unfold pathlib.parent. simpl.
  rewrite removelast_last. by destruct (pathlib.joinpath d i).
Qed.

Lemma database_path_ne_parent d i :
  pathlib.parent (database_path d i) ≠ database_path d i.
Proof.
  rewrite parent_database_path, database_path_parts.
  destruct (pathlib.joinpath d i) as [a ps]. simpl. intros [= Hps].
  apply (f_equal length) in Hps. rewrite length_app in Hps. simpl in Hps. lia.
Qed.

Lemma suffix_database_path d i : pathlib.suffix (database_path d i) = ".gpkg".
Proof.
  rewrite database_path_parts. unfold pathlib.suffix, pathlib.name. simpl.
  by rewrite last_snoc.
Qed.

Lemma toml_path_ne_database p d i :
  pathlib.suffix p = ".toml" → p ≠ database_path d i.
Proof. intros Hp ->. by rewrite suffix_database_path in Hp. Qed.

Lemma is_dir_delete (f : gmap Path FsNode) p q :
  q ≠ p → is_dir (delete p f) q = is_dir f q.
Proof. intros Hne. unfold is_dir. by rewrite lookup_delete_ne. Qed.

Lemma is_dir_insert (f : gmap Path FsNode) p q x :
  q ≠ p → is_dir (<[p := x]> f) q = is_dir f q.
Proof. intros Hne. unfold is_dir. by rewrite lookup_insert_ne. Qed.

Lemma Model_save_inr m directory idir w w' :
  let db := database_path directory idir in
  _save m directory idir w = (inr tt, w') ↔
  ∃ fB, mkdir_from (pathlib.absolute (pathlib.parent db)) []
                   (pathlib.parts (pathlib.parent db)) (fs w) = inr fB
        ∧ fB !! db ≠ Some Dir
        ∧ w' = mkWorld (store_fs (delete db fB) db (stored m))
                       (<["database" := db]> (context_file_loading w)).
Proof.
  intros db. unfold _save. fold (database_path directory idir). fold db.
  assert (Hrun : ∀ fB,
    mkdir_from (pathlib.absolute (pathlib.parent db)) []
               (pathlib.parts (pathlib.parent db)) (fs w) = inr fB →
    bind (EdgeTable_save (edge m) directory idir)
         (λ _, for_each (_nodes rows_empty m)
                 (λ sub, MultiNodeModel_save sub.1 sub.2 directory idir))
      (mkWorld (delete db fB) (<["database" := db]> (context_file_loading w)))
    = (inr tt, mkWorld (store_fs (delete db fB) db (stored m))
                       (<["database" := db]> (context_file_loading w)))).
  { intros fB HfB.
    apply (save_tables_run (delete db fB) db _ (lookup_delete_eq _ _)
             ltac:(rewrite is_dir_delete by apply database_path_ne_parent;
                   by eapply is_dir_ancestors, mkdir_from_dirs)
             (lookup_insert_eq _ _ _) m directory idir None). }
  split.
  - intros ([] & w1 & (fB & HfB & ->)%mkdir_inr & ([] & w2 & [Hdb ->]%unlink_inr
            & ([] & w3 & [= <-] & Hsave)%bind_inr)%bind_inr)%bind_inr.
    exists fB. split; [done|]. split; [done|].
    unfold set_context, set_fs in Hsave. simpl in Hsave.
    rewrite (Hrun fB HfB) in Hsave. by injection Hsave as <-.
  - intros (fB & HfB & Hdb & ->).
    rewrite (bind_run _ _ _ tt (set_fs fB w)) by (apply mkdir_inr; eauto).
    rewrite (bind_run _ _ _ tt (set_fs (delete db fB) (set_fs fB w)))
      by (by apply unlink_inr).
    unfold bind at 1, context_setitem, set_context, set_fs. simpl.
    by apply Hrun.
Qed.

Lemma write_inr m p w fn w' :
  let db := database_path (pathlib.parent p) (input_dir m) in
  write dump_node dump_edge m p w = (inr fn, w') ↔
  pathlib.suffix p = ".toml" ∧ fn = p ∧
  ∃ fA fB,
    mkdir_from (pathlib.absolute (pathlib.parent p)) []
               (pathlib.parts (pathlib.parent p)) (fs w) = inr fA
    ∧ mkdir_from (pathlib.absolute (pathlib.parent db)) []
                 (pathlib.parts (pathlib.parent db)) fA = inr fB
    ∧ fB !! db ≠ Some Dir
    ∧ store_fs (delete db fB) db (stored m) !! p ≠ Some Dir
    ∧ is_dir (store_fs (delete db fB) db (stored m)) (pathlib.parent p) = true
    ∧ w' = mkWorld (<[p := TomlFile (toml_content dump_node dump_edge m)]>
                      (store_fs (delete db fB) db (stored m))) ∅.
Proof.
  intros db. unfold write.
  destruct (String.eqb (pathlib.suffix p) ".toml") eqn:Hsuf; simpl.
  2:{ apply String.eqb_neq in Hsuf. split; [done|]. by intros [? _]. }
  apply String.eqb_eq in Hsuf. unfold _write_toml. fold (toml_content dump_node dump_edge m).
  split.
  - intros ([] & w1 & [= <-] & ([] & w2 & (fA & HfA & ->)%mkdir_inr
            & ([] & w3 & (fB & HfB & Hdb & ->)%Model_save_inr
            & (fn' & w4 & ([] & w5 & (Hp & Hdir & ->)%open_wb_inr & [= <- <-])%bind_inr
            & ([] & w6 & [= <-] & [= <- <-])%bind_inr)%bind_inr)%bind_inr)%bind_inr)%bind_inr.
    split; [done|]. split; [done|]. exists fA, fB. by repeat split.
  - intros (_ & -> & fA & fB & HfA & HfB & Hdb & Hp & Hdir & ->).
    unfold bind at 1, context_set. simpl.
    rewrite (bind_run _ _ _ tt (set_fs fA (set_context ∅ w)))
      by (apply mkdir_inr; eauto).
    erewrite bind_run; [|apply Model_save_inr; exists fB; by repeat split].
    erewrite bind_run;
      [|erewrite bind_run; [reflexivity|by apply open_wb_inr]].
    done.
Qed.

End WriteFacts.

(** ** Dictionaries *)

Section DictFacts.
Context {V : Type}.
Implicit Types (d : list (string * V)) (k : string) (v : V).

Lemma dict_get_Some_elem_of k v d : dict_get k d = Some v → (k, v) ∈ d.
Proof.
  induction d as [|[k' v'] d IH]; simpl; [done|].
  case_decide; [intros [= ->]; subst; by left | right; auto].
Qed.

Lemma dict_get_None k d : dict_get k d = None ↔ k ∉ d.*1.
Proof.
  induction d as [|[k' v'] d IH]; simpl.
  - split; [intros _; apply not_elem_of_nil | done].
  - case_decide; subst.
    + split; [done|]. intros []. by left.
    + rewrite IH, not_elem_of_cons. simpl. split; [by split|by intros [_ ?]].
Qed.

Lemma dict_get_set k k' v d :
  dict_get k (dict_set k' v d) = if decide (k' = k) then Some v else dict_get k d.
Proof.
  induction d as [|[k0 v0] d IH]; simpl.
  - done.
  - destruct (decide (k0 = k')) as [->|Hne]; simpl.
    + by destruct (decide (k' = k)).
    + destruct (decide (k0 = k)) as [->|]; [|done].
      by destruct (decide (k' = k)); [congruence|].
Qed.

Lemma dict_get_filter (P : string * V → Prop) `{∀ x, Decision (P x)} k d :
  NoDup d.*1 →
  dict_get k (filter P d)
  = match dict_get k d with
    | Some v => if decide (P (k, v)) then Some v else None
    | None => None
    end.
Proof.
  induction d as [|[k' v'] d IH]; intros Hnd; simpl; [done|].
  apply NoDup_cons in Hnd as [Hk' Hnd]. rewrite filter_cons.
  destruct (decide (k' = k)) as [->|Hne].
  - destruct (decide (P (k, v'))); simpl.
    + by rewrite decide_True.
    + rewrite IH by done. simpl in Hk'.
      by rewrite (proj2 (dict_get_None k d) Hk').
  - destruct (decide (P (k', v'))); simpl; [rewrite decide_False by done|];
      by apply IH.
Qed.

(** A dictionary built key by key from a partial function. *)
Lemma dict_get_flat_map (g : string → option V) (ks : list string) k :
  dict_get k (flat_map (λ key, match g key with
                               | Some v => [(key, v)]
                               | None => []
                               end) ks)
  = if decide (k ∈ ks) then g k else None.
Proof.
  induction ks as [|key ks IH]; simpl; [done|].
  destruct (g key) as [v|] eqn:Hg; simpl.
  - destruct (decide (key = k)) as [->|Hne].
    + rewrite decide_True by left. done.
    + rewrite IH. destruct (decide (k ∈ ks)).
      * by rewrite decide_True by by right.
      * rewrite decide_False; [done|]. rewrite not_elem_of_cons. naive_solver.
  - rewrite IH. destruct (decide (k ∈ ks)).
    + by rewrite decide_True by by right.
    + destruct (decide (k ∈ key :: ks)) as [[->|?]%elem_of_cons|]; done.
Qed.

Lemma flat_map_keys (g : string → option V) (ks : list string) :
  (flat_map (λ key, match g key with
                    | Some v => [(key, v)]
                    | None => []
                    end) ks).*1
  = filter (λ key, is_Some (g key)) ks.
Proof.
  induction ks as [|key ks IH]; simpl; [done|].
  rewrite filter_cons. destruct (g key) as [v|]; simpl; [f_equal|]; exact IH.
Qed.

End DictFacts.

(** ** The configuration file *)

Section ConfigFacts.
Variable dump_node : string → MultiNodeModel Frame → list (string * Scalar).
Variable dump_edge : EdgeTable → list (string * Scalar).

Lemma NoDup_model_fields : NoDup model_fields.
Proof. apply (bool_decide_unpack _). by vm_compute. Qed.

Lemma model_dump_flat m :
  model_dump dump_node dump_edge m
  = flat_map (λ key, match dump_field dump_node dump_edge m key with
                     | Some v => [(key, v)]
                     | None => []
                     end) model_fields.
Proof.
  unfold model_dump. apply flat_map_ext. intros key.
  unfold dump_field. by case_decide.
Qed.

Lemma model_dump_NoDup m : NoDup (model_dump dump_node dump_edge m).*1.
Proof.
  rewrite model_dump_flat, flat_map_keys.
  apply NoDup_filter, NoDup_model_fields.
Qed.

Lemma dict_get_model_dump m k :
  dict_get k (model_dump dump_node dump_edge m)
  = if decide (k ∈ model_fields) then dump_field dump_node dump_edge m k else None.
Proof. rewrite model_dump_flat. apply dict_get_flat_map. Qed.

Lemma dict_get_toml_content m k :
  dict_get k (toml_content dump_node dump_edge m)
  = if decide ("ribasim_version" = k) then Some (VScalar (SStr __version__))
    else match (if decide (k ∈ model_fields) then dump_field dump_node dump_edge m k else None) with
         | Some v => if truthy v then Some v else None
         | None => None
         end.
Proof.
  unfold toml_content. rewrite dict_get_set. case_decide; [done|].
  rewrite dict_get_filter by apply model_dump_NoDup.
  rewrite dict_get_model_dump.
  destruct (if decide (k ∈ model_fields) then dump_field dump_node dump_edge m k else None)
    as [v|]; [|done].
  simpl. by destruct (truthy v).
Qed.

Lemma str_truthy p : truthy (VScalar (SStr (pathlib.str p))) = true.
Proof.
  unfold pathlib.str. simpl. case_decide as Hs; [done|].
  apply negb_true_iff, String.eqb_neq, Hs.
Qed.

Lemma serialize_none_free a v :
  serialize dump_node dump_edge a = Some v → none_free v.
Proof.
  destruct a; simpl; intros [= <-]; simpl; try done.
  - by intros k s [[_ Hs] _]%list_elem_of_filter.
  - by intros k s [Hs _]%list_elem_of_filter.
  - by intros k s [Hs _]%list_elem_of_filter.
Qed.

(** [write] rejects every other suffix before it does anything. *)
Lemma write_other_suffix m p w :
  pathlib.suffix p ≠ ".toml" →
  write dump_node dump_edge m p w = (inl ValueError, w).
Proof.
  intros Hsuf. unfold write.
  by apply String.eqb_neq in Hsuf as ->.
Qed.

End ConfigFacts.

Lemma parent_ne (p : Path) : pathlib.parts p ≠ [] → pathlib.parent p ≠ p.
Proof.
  destruct p as [a ps]. unfold pathlib.parent. simpl.
  destruct ps as [|c ps _] using rev_ind; [done|]. intros _ [= Heq].
  rewrite removelast_last in Heq. apply (f_equal length) in Heq.
  rewrite length_app in Heq. simpl in Heq. lia.
Qed.

Lemma suffix_parts (p : Path) (s : string) :
  pathlib.suffix p = s → s ≠ "" → pathlib.parts p ≠ [].
Proof.
  intros <- Hs Hparts. apply Hs.
  unfold pathlib.suffix, pathlib.name. by rewrite Hparts.
Qed.

(** ** Claims about [write] *)

Section WriteClaims.
Variable dump_node : string → MultiNodeModel Frame → list (string * Scalar).
Variable dump_edge : EdgeTable → list (string * Scalar).

Lemma elem_of_dict_set {V} (k k' : string) (v v' : V) d :
  (k', v') ∈ dict_set k v d → (k' = k ∧ v' = v) ∨ (k', v') ∈ d.
Proof.
  induction d as [|[k0 v0] d IH]; simpl.
  - intros [= -> ->]%list_elem_of_singleton. by left.
  - case_decide; subst.
    + intros [[= -> ->]|?]%elem_of_cons; [by left|]. right. by right.
    + intros [[= -> ->]|[?|?]%IH]%elem_of_cons; [right; by left|by left|].
      right. by right.
Qed.

Lemma elem_of_model_dump m k v :
  (k, v) ∈ model_dump dump_node dump_edge m →
  k ∈ model_fields ∧ k ∈ model_fields_set m
  ∧ ∃ a, getattr m k = Some a ∧ serialize dump_node dump_edge a = Some v.
Proof.
  unfold model_dump.
  intros (key & Hkey%list_elem_of_In & Hin)%list_elem_of_In%in_flat_map.
  case_decide as Hset; [|done].
  destruct (getattr m key) as [a|] eqn:Hget; simpl in Hin; [|done].
  destruct (serialize dump_node dump_edge a) as [v'|] eqn:Hser; [|done].
  destruct Hin as [[= -> ->]|[]]. eauto.
Qed.

Lemma elem_of_toml_content m k v :
  (k, v) ∈ toml_content dump_node dump_edge m →
  (k = "ribasim_version" ∧ v = VScalar (SStr __version__))
  ∨ (k ∈ model_fields ∧ k ∈ model_fields_set m
     ∧ ∃ a, getattr m k = Some a ∧ serialize dump_node dump_edge a = Some v).
Proof.
  intros [?|[_ Hin]%list_elem_of_filter]%elem_of_dict_set; [by left|].
  right. by apply elem_of_model_dump.
Qed.

(** C5: a path whose suffix is not [.toml] makes [write] raise
    [ValueError] with the world exactly as it was: no file, no directory,
    no change of the context. *)
Theorem write_rejects_other_suffix (m : Model Frame) (p : Path) (w : World) :
  pathlib.suffix p ≠ ".toml" →
  write dump_node dump_edge m p w = (inl ValueError, w).
Proof. apply write_other_suffix. Qed.

(** C7: the configuration file of a successful [write] holds only fields
    that were explicitly set (whole fields and fields of settings groups
    alike), holds no [None] anywhere, and always holds [input_dir] and
    [results_dir] as plain path strings and the [ribasim_version] tag. *)
Theorem write_config_contents (m0 : Model Frame) (p fn : Path) (w w' : World) :
  let m := model_post_init m0 in
  write dump_node dump_edge m p w = (inr fn, w') →
  ∃ content,
    fs w' !! fn = Some (TomlFile content)
    ∧ (∀ k, k ∈ content.*1 →
         k = "ribasim_version" ∨ k ∈ model_fields_set m)
    ∧ (∀ key cls c d k,
         getattr m key = Some (AChild cls c) →
         (key, VDict d) ∈ content → k ∈ d.*1 → k ∈ child_fields_set c)
    ∧ (∀ k v, (k, v) ∈ content → none_free v)
    ∧ dict_get "input_dir" content
      = Some (VScalar (SStr (pathlib.str (input_dir m0))))
    ∧ dict_get "results_dir" content
      = Some (VScalar (SStr (pathlib.str (results_dir m0))))
    ∧ dict_get "ribasim_version" content = Some (VScalar (SStr __version__)).
Proof.
  intros m (_ & -> & fA & fB & _ & _ & _ & _ & _ & ->)%write_inr.
  exists (toml_content dump_node dump_edge m). split; [apply lookup_insert_eq|].
  split; [|split; [|split; [|split; [|split]]]].
  - intros k ([k' v] & -> & Hin)%list_elem_of_fmap.
    apply elem_of_toml_content in Hin as [[-> _]|(_ & Hset & _)]; auto.
  - intros key cls c d k Hget Hin Hk.
    apply elem_of_toml_content in Hin as [[_ [=]]|(_ & _ & a & Ha & Hser)].
    rewrite Hget in Ha. injection Ha as <-. simpl in Hser.
    injection Hser as <-.
    apply list_elem_of_fmap in Hk as ([k' s] & -> & [[Hk _] _]%list_elem_of_filter).
    exact Hk.
  - intros k v [[_ ->]|(_ & _ & a & _ & Hser)]%elem_of_toml_content; [done|].
    by eapply serialize_none_free.
  - rewrite dict_get_toml_content. rewrite decide_False by done.
    rewrite decide_True by (by apply (bool_decide_unpack _); vm_compute).
    unfold dump_field. rewrite decide_True by (subst m; simpl; set_solver).
    change (getattr m "input_dir" ≫= serialize dump_node dump_edge)
      with (Some (VScalar (SStr (pathlib.str (input_dir m0))))).
    cbv beta iota. by rewrite str_truthy.
  - rewrite dict_get_toml_content. rewrite decide_False by done.
    rewrite decide_True by (by apply (bool_decide_unpack _); vm_compute).
    unfold dump_field. rewrite decide_True by (subst m; simpl; set_solver).
    change (getattr m "results_dir" ≫= serialize dump_node dump_edge)
      with (Some (VScalar (SStr (pathlib.str (results_dir m0))))).
    cbv beta iota. by rewrite str_truthy.
  - rewrite dict_get_toml_content. by rewrite decide_True.
Qed.

(** C8: a second [write] of the same model to the same path succeeds and
    changes nothing: the configuration file holds the same document, the
    geometry store the same layers, and every other file is untouched. *)
Theorem write_idempotent (m : Model Frame) (p fn : Path) (w w1 : World) :
  write dump_node dump_edge m p w = (inr fn, w1) →
  write dump_node dump_edge m p w1 = (inr fn, w1)
  ∧ fs w1 !! p = Some (TomlFile (toml_content dump_node dump_edge m))
  ∧ fs w1 !! database_path (pathlib.parent p) (input_dir m)
    = Gpkg <$> stored m.
Proof.
  intros Hrun. pose proof Hrun as
    (Hsuf & -> & fA & fB & HfA & HfB & Hdb & Hp & Hdir & ->)%write_inr.
  set (db := database_path (pathlib.parent p) (input_dir m)) in *.
  set (fD := store_fs (delete db fB) db (stored m)) in *.
  set (fE := <[p := TomlFile (toml_content dump_node dump_edge m)]> fD).
  assert (Hne : p ≠ db) by by apply toml_path_ne_database.
  assert (HfD_db : fD !! db = Gpkg <$> stored m).
  { subst fD. destruct (stored m); simpl;
      [apply lookup_insert_eq | apply lookup_delete_eq]. }
  assert (HfE_db : fE !! db = Gpkg <$> stored m).
  { subst fE. by rewrite lookup_insert_ne. }
  assert (Hkeep : ∀ q, fB !! q = Some Dir → fE !! q = Some Dir).
  { intros q Hq. subst fE.
    assert (q ≠ db) by (intros ->; done).
    assert (fD !! q = Some Dir) as HqD.
    { subst fD. destruct (stored m); simpl;
        rewrite ?lookup_insert_ne, lookup_delete_ne; done. }
    rewrite lookup_insert_ne; [done|]. intros ->. done. }
  assert (Hsame : store_fs (delete db fE) db (stored m) = fE).
  { destruct (stored m) as [d|] eqn:Hst; simpl.
    - rewrite insert_delete_eq. by apply insert_id.
    - by apply delete_id. }
  split; [|split; [apply lookup_insert_eq | exact HfE_db]].
  apply write_inr. split; [done|]. split; [done|].
  exists fE, fE. fold db. rewrite Hsame.
  split; [|split; [|split; [|split; [|split]]]].
  - apply mkdir_from_existing. eapply Forall_impl; [by eapply mkdir_from_dirs|].
    intros q Hq. simpl in Hq. apply Hkeep. by eapply mkdir_from_keeps.
  - apply mkdir_from_existing. eapply Forall_impl; [by eapply mkdir_from_dirs|].
    intros q Hq. by apply Hkeep.
  - rewrite HfE_db. by destruct (stored m).
  - subst fE. by rewrite lookup_insert_eq.
  - subst fE. rewrite is_dir_insert; [done|].
    apply parent_ne. by eapply suffix_parts.
  - subst fE. by rewrite insert_insert_eq.
Qed.

End WriteClaims.

(** ** Paths and their string form *)

Section PathFacts.
Import pathlib.

Lemma rfind_cons_None c a s :
  rfind c (String a s) = None ↔ Ascii.eqb a c = false ∧ rfind c s = None.
Proof.
  simpl. destruct (rfind c s).
  - split; [done|by intros [_ ?]].
  - destruct (Ascii.eqb a c); split; try done. by intros [? _].
Qed.

Lemma split_sep_component c :
  rfind "/" c = None → split_sep c = [c].
Proof.
  induction c as [|a c IH]; [done|].
  intros [Ha Hc]%rfind_cons_None. simpl. rewrite Ha, IH; done.
Qed.

Lemma split_sep_app c s :
  rfind "/" c = None →
  split_sep (c +:+ "/" +:+ s) = c :: split_sep s.
Proof.
  induction c as [|a c IH]; [done|].
  intros [Ha Hc]%rfind_cons_None.
  change (String a c +:+ "/" +:+ s) with (String a (c +:+ "/" +:+ s)).
  simpl. rewrite Ha. fold split_sep. by rewrite IH.
Qed.

Lemma split_sep_join c l :
  Forall component_ok (c :: l) → split_sep (join_parts (c :: l)) = c :: l.
Proof.
  revert c. induction l as [|c' l IH]; intros c Hall.
  - apply Forall_singleton in Hall as (_ & _ & Hc). simpl.
    by apply split_sep_component.
  - apply Forall_cons in Hall as [(_ & _ & Hc) Hall].
    change (join_parts (c :: c' :: l)) with (c +:+ "/" +:+ join_parts (c' :: l)).
    rewrite split_sep_app by done. by rewrite IH.
Qed.

Lemma filter_components l :
  Forall component_ok l → List.filter is_component l = l.
Proof.
  induction 1 as [|c l (Hne & Hdot & _) _ IH]; [done|].
  cbn [List.filter].
  assert (is_component c = true) as ->.
  { unfold is_component.
    apply String.eqb_neq in Hne as ->. by apply String.eqb_neq in Hdot as ->. }
  by rewrite IH.
Qed.

Lemma append_empty_r s : s +:+ "" = s.
Proof.
  induction s as [|a s IH]; [done|].
  change (String a s +:+ "") with (String a (s +:+ "")). by rewrite IH.
Qed.

Lemma join_parts_head c l :
  ∃ s, join_parts (c :: l) = c +:+ s.
Proof.
  destruct l as [|c' l]; simpl.
  - exists "". by rewrite append_empty_r.
  - eauto.
Qed.

Lemma split_sep_root s : split_sep (String "/" s) = "" :: split_sep s.
Proof. reflexivity. Qed.

(** Parsing the string form of a path gives the path back. *)
Lemma of_str_str p : Path_wf p → of_str (str p) = p.
Proof.
  destruct p as [a [|c l]]; unfold Path_wf, str; cbn [absolute parts];
    intros Hall.
  - by destruct a.
  - pose proof Hall as [(Hne & _ & Hsep) _]%Forall_cons.
    destruct (join_parts_head c l) as [s Hs].
    destruct c as [|ch c]; [done|].
    apply rfind_cons_None in Hsep as [Hch _].
    destruct a.
    + change ("/" +:+ ?x) with (String "/" x).
      rewrite decide_False by done. unfold of_str.
      rewrite split_sep_root, split_sep_join by done.
      change (List.filter is_component ("" :: ?x))
        with (List.filter is_component x).
      by rewrite filter_components.
    + change ("" +:+ ?x) with x.
      rewrite decide_False by (by rewrite Hs).
      unfold of_str. rewrite split_sep_join, filter_components by done.
      rewrite Hs. change (String ch c +:+ s) with (String ch (c +:+ s)).
      cbv beta iota. by rewrite Hch.
Qed.

End PathFacts.

(** ** What the geometry store holds after [_save] *)

Section StoreFacts.

Lemma filter_cons_bool {A} (b : A → bool) (x : A) (l : list A) :
  filter (λ y, b y) (x :: l) = (if b x then [x] else []) ++ filter (λ y, b y) l.
Proof. rewrite filter_cons. by destruct (b x). Qed.

Lemma nodes_filter {D} (df_empty : D → bool) (m : Model D) :
  _nodes df_empty m
  = filter (λ nd, populated df_empty nd.2) (MultiNodeModels m).
Proof.
  unfold MultiNodeModels, attributes. cbn [omap list_omap snd].
  rewrite !filter_cons_bool, filter_nil. reflexivity.
Qed.

Lemma MultiNodeModels_classes {D} (m : Model D) :
  (MultiNodeModels m).*1
  = [ "Basin"; "LinearResistance"; "ManningResistance"; "TabulatedRatingCurve";
      "FractionalFlow"; "Pump"; "LevelBoundary"; "FlowBoundary"; "Outlet";
      "Terminal"; "DiscreteControl"; "PidControl"; "UserDemand"; "LevelDemand" ].
Proof. reflexivity. Qed.

Lemma MultiNodeModels_NoDup {D} (m : Model D) : NoDup (MultiNodeModels m).*1.
Proof.
  rewrite MultiNodeModels_classes. apply (bool_decide_unpack _). by vm_compute.
Qed.

Lemma NoDup_fst_eq {A B} (l : list (A * B)) k v v' :
  NoDup l.*1 → (k, v) ∈ l → (k, v') ∈ l → v = v'.
Proof.
  induction l as [|[k0 v0] l IH]; simpl; [by intros _ ?%elem_of_nil|].
  intros [Hk0 Hnd]%NoDup_cons H1 H2.
  apply elem_of_cons in H1 as [H1|H1], H2 as [H2|H2]; simplify_eq.
  - done.
  - destruct Hk0. by apply (list_elem_of_fmap_2 fst _ (k0, v')).
  - destruct Hk0. by apply (list_elem_of_fmap_2 fst _ (k0, v)).
  - by apply IH.
Qed.

Lemma param_step_nodes cls cur t :
  cur_nodes (param_step cls cur t) = cur_nodes cur
  ∧ cur_edge (param_step cls cur t) = cur_edge cur.
Proof. unfold param_step. by destruct (t.2). Qed.

Lemma foldl_param_step cls cur ts :
  cur_nodes (foldl (param_step cls) cur ts) = cur_nodes cur
  ∧ cur_edge (foldl (param_step cls) cur ts) = cur_edge cur.
Proof.
  revert cur. induction ts as [|t ts IH]; intros cur; simpl; [done|].
  destruct (IH (param_step cls cur t)) as [-> ->]. apply param_step_nodes.
Qed.

Lemma node_step_nodes cur nd :
  cur_nodes (node_step cur nd)
  = match df (node nd.2) with
    | Some rows => <[nd.1 := rows]> (cur_nodes cur)
    | None => cur_nodes cur
    end.
Proof.
  unfold node_step. rewrite (proj1 (foldl_param_step _ _ _)).
  by destruct (df (node nd.2)).
Qed.

Lemma node_step_edge cur nd : cur_edge (node_step cur nd) = cur_edge cur.
Proof.
  unfold node_step. rewrite (proj2 (foldl_param_step _ _ _)).
  by destruct (df (node nd.2)).
Qed.

Lemma foldl_node_step_edge cur nds :
  cur_edge (foldl node_step cur nds) = cur_edge cur.
Proof.
  revert cur. induction nds as [|nd nds IH]; intros cur; simpl; [done|].
  by rewrite IH, node_step_edge.
Qed.

Lemma foldl_node_step_other cur nds cls :
  cls ∉ nds.*1 →
  cur_nodes (foldl node_step cur nds) !! cls = cur_nodes cur !! cls.
Proof.
  revert cur. induction nds as [|[c sub] nds IH]; intros cur Hcls; simpl; [done|].
  apply not_elem_of_cons in Hcls as [Hne Hcls]. rewrite IH by done.
  rewrite node_step_nodes. simpl in *.
  destruct (df (node sub)); [by rewrite lookup_insert_ne|done].
Qed.

Lemma foldl_node_step_lookup cur nds cls sub rows :
  NoDup nds.*1 → (cls, sub) ∈ nds → df (node sub) = Some rows →
  cur_nodes (foldl node_step cur nds) !! cls = Some rows.
Proof.
  revert cur. induction nds as [|[c s] nds IH]; intros cur Hnd Hin Hdf; simpl.
  - by apply elem_of_nil in Hin.
  - apply NoDup_cons in Hnd as [Hc Hnd].
    apply elem_of_cons in Hin as [[= -> ->]|Hin].
    + rewrite foldl_node_step_other by done.
      rewrite node_step_nodes. simpl. rewrite Hdf. apply lookup_insert_eq.
    + by apply IH.
Qed.

Lemma stored_edge (m : Model Frame) : cur_edge (stored m) = edge_df (edge m).
Proof.
  unfold stored. rewrite foldl_node_step_edge. unfold edge_step.
  by destruct (edge_df (edge m)).
Qed.

Lemma NoDup_filter_fst {A B} (P : A * B → Prop) `{∀ x, Decision (P x)}
    (l : list (A * B)) :
  NoDup l.*1 → NoDup (filter P l).*1.
Proof.
  induction l as [|x l IH]; simpl; [done|].
  intros [Hx Hnd]%NoDup_cons. rewrite filter_cons.
  destruct (decide (P x)); simpl; [|by apply IH].
  apply NoDup_cons. split; [|by apply IH].
  intros ([k v] & Hk & [_ Hin]%list_elem_of_filter)%list_elem_of_fmap.
  apply Hx. rewrite Hk. by apply (list_elem_of_fmap_2 fst _ (k, v)).
Qed.

(** The node layer of a class holds the rows of the node table of that
    class; an unused or empty table has no layer. *)
Lemma stored_node_rows (m : Model Frame) cls sub :
  (cls, sub) ∈ MultiNodeModels m →
  default [] (cur_nodes (stored m) !! cls) = df_rows (node sub).
Proof.
  intros Hin. unfold stored. rewrite nodes_filter.
  destruct (populated rows_empty sub) eqn:Hpop.
  - pose proof Hpop as (rows & Hrows & _)%populated_spec.
    erewrite foldl_node_step_lookup; [|
      apply NoDup_filter_fst, MultiNodeModels_NoDup|
      apply list_elem_of_filter; split; [simpl; by rewrite Hpop|done]|done].
    unfold df_rows. by rewrite Hrows.
  - rewrite foldl_node_step_other.
    + replace (cur_nodes (edge_step None (edge m)) !! cls) with (@None Frame)
        by (unfold edge_step; by destruct (edge_df (edge m))).
      unfold populated in Hpop. unfold df_rows.
      destruct (df (node sub)) as [[|r rows]|]; done.
    + intros ([c sub'] & Hc & [Hpop' Hin']%list_elem_of_filter)%list_elem_of_fmap.
      simpl in Hc. subst c.
      assert (sub' = sub) as ->
        by by eapply NoDup_fst_eq; [apply MultiNodeModels_NoDup|..].
      simpl in Hpop'. by rewrite Hpop in Hpop'.
Qed.

End StoreFacts.

(** ** Reading back what [write] wrote *)

Section ReadFacts.
Variable dump_node : string → MultiNodeModel Frame → list (string * Scalar).
Variable dump_edge : EdgeTable → list (string * Scalar).
Variable class_fields : string → list (string * Scalar).
Variable table_names : string → list string.

Lemma dict_get_NoDup {V} (d : list (string * V)) k v :
  NoDup d.*1 → (k, v) ∈ d → dict_get k d = Some v.
Proof.
  intros Hnd Hin. destruct (dict_get k d) as [v'|] eqn:Hget.
  - f_equal. apply dict_get_Some_elem_of in Hget. by eapply NoDup_fst_eq.
  - apply dict_get_None in Hget. destruct Hget.
    by apply (list_elem_of_fmap_2 fst _ (k, v)).
Qed.

Lemma ChildModel_validate_dump cls c :
  child_ok class_fields cls c →
  child_fields (ChildModel_validate class_fields cls (dump_child c))
  = child_fields c.
Proof.
  intros (Hkeys & Hnd & Hdflt). rewrite Forall_forall in Hdflt.
  simpl. apply list_eq. intros i.
  rewrite list_lookup_fmap.
  pose proof (f_equal (λ l, l !! i) Hkeys) as Hi. simpl in Hi.
  rewrite !list_lookup_fmap in Hi.
  destruct (class_fields cls !! i) as [[k dv]|] eqn:HL;
    destruct (child_fields c !! i) as [[k' v]|] eqn:HC; simplify_eq/=; [|done].
  f_equal. f_equal.
  assert ((k, v) ∈ child_fields c) as Hin by by eapply list_elem_of_lookup_2.
  assert ((k, dv) ∈ class_fields cls) as HinL by by eapply list_elem_of_lookup_2.
  unfold dump_child. rewrite dict_get_filter by by rewrite Hkeys.
  rewrite (dict_get_NoDup _ _ v) by (by rewrite ?Hkeys).
  case_decide as HP; [done|]. simpl.
  eapply NoDup_fst_eq; [exact Hnd|exact HinL|]. apply (Hdflt (k, v)); [done|].
  apply not_and_l in HP as [?|?]; [by left|right].
  by destruct (decide (v = SNone)).
Qed.

Lemma ChildModel_validate_nil cls :
  child_fields (ChildModel_validate class_fields cls []) = class_fields cls.
Proof.
  simpl. induction (class_fields cls) as [|[k v] l IH]; [done|].
  rewrite fmap_cons, IH. done.
Qed.

Lemma validate_child_toml m key cls c :
  getattr m key = Some (AChild cls c) →
  key ∈ model_fields → key ≠ "ribasim_version" →
  group_ok class_fields m key cls c →
  ∃ c', validate_child class_fields cls key (toml_content dump_node dump_edge m)
        = inr c'
        ∧ child_fields c' = child_fields c.
Proof.
  intros Hget Hkey Hver [Hok Hunset]. unfold validate_child.
  rewrite dict_get_toml_content, decide_False, decide_True by done.
  unfold dump_field. case_decide as Hset.
  - rewrite Hget. simpl. destruct (dump_child c) as [|x d] eqn:Hd.
    + eexists. split; [done|]. rewrite <- Hd. by apply ChildModel_validate_dump.
    + eexists. split; [done|]. rewrite <- Hd. by apply ChildModel_validate_dump.
  - eexists. split; [done|]. rewrite ChildModel_validate_nil. by rewrite Hunset.
Qed.

Lemma validate_datetime_toml m key t :
  getattr m key = Some (ADatetime t) →
  key ∈ model_fields → key ≠ "ribasim_version" → key ∈ model_fields_set m →
  validate_datetime key (toml_content dump_node dump_edge m) = inr t.
Proof.
  intros Hget Hkey Hver Hset. unfold validate_datetime.
  rewrite dict_get_toml_content, decide_False, decide_True by done.
  unfold dump_field. rewrite decide_True, Hget by done. done.
Qed.

Lemma dict_get_path_toml m key p :
  getattr m key = Some (APath p) →
  key ∈ model_fields → key ≠ "ribasim_version" → key ∈ model_fields_set m →
  dict_get key (toml_content dump_node dump_edge m)
  = Some (VScalar (SStr (pathlib.str p))).
Proof.
  intros Hget Hkey Hver Hset.
  rewrite dict_get_toml_content, decide_False, decide_True by done.
  unfold dump_field. rewrite decide_True, Hget by done.
  change (Some (APath p) ≫= serialize dump_node dump_edge)
    with (Some (VScalar (SStr (pathlib.str p)))).
  cbv beta iota. by rewrite str_truthy.
Qed.

Lemma validate_path_toml m key p dflt :
  getattr m key = Some (APath p) →
  key ∈ model_fields → key ≠ "ribasim_version" → key ∈ model_fields_set m →
  pathlib.Path_wf p →
  validate_path key dflt (toml_content dump_node dump_edge m) = inr p.
Proof.
  intros Hget Hkey Hver Hset Hwf. unfold validate_path.
  rewrite (dict_get_path_toml m key p) by done. by rewrite of_str_str.
Qed.

Lemma open_store_run w db cur :
  context_file_loading w !! "database" = Some db →
  fs w !! db = Gpkg <$> cur →
  open_store w = (inr (default empty_database cur), w).
Proof.
  intros Hctx Hdb. unfold open_store, bind, get_world. rewrite Hctx, Hdb.
  by destruct cur.
Qed.

End ReadFacts.

Section RoundTrip.
Variable dump_node : string → MultiNodeModel Frame → list (string * Scalar).
Variable dump_edge : EdgeTable → list (string * Scalar).
Variable class_fields : string → list (string * Scalar).
Variable table_names : string → list string.

Lemma bind_lift_inr {A B} (r : Exn + A) (k : A → IO B) a w :
  r = inr a → bind (lift_result r) k w = k a w.
Proof. by intros ->. Qed.

(** The files a successful [write] leaves behind. *)
Lemma write_files m p w fn w1 :
  write dump_node dump_edge m p w = (inr fn, w1) →
  fn = p ∧ pathlib.suffix p = ".toml"
  ∧ context_file_loading w1 = ∅
  ∧ fs w1 !! p = Some (TomlFile (toml_content dump_node dump_edge m))
  ∧ fs w1 !! database_path (pathlib.parent p) (input_dir m)
    = Gpkg <$> stored m.
Proof.
  intros (Hsuf & -> & fA & fB & HfA & HfB & Hdb & Hp & Hdir & ->)%write_inr.
  split; [done|]. split; [done|]. split; [done|].
  split; [apply lookup_insert_eq|]. simpl.
  rewrite lookup_insert_ne by by apply toml_path_ne_database.
  destruct (stored m); simpl; [apply lookup_insert_eq | apply lookup_delete_eq].
Qed.

Lemma load_run w p content s :
  fs w !! p = Some (TomlFile content) →
  dict_get "input_dir" content = Some (VScalar (SStr s)) →
  let directory := pathlib.joinpath (pathlib.parent p) (pathlib.of_str s) in
  _load (Some p) w
  = (inr content,
     mkWorld (fs w)
       (<["database" := pathlib.joinpath directory (pathlib.of_str "database.gpkg")]>
          (<["directory" := directory]> ∅))).
Proof.
  intros Hp Hdir directory. unfold _load.
  rewrite (bind_run _ _ _ tt (set_context ∅ w)) by done.
  rewrite (bind_run _ _ _ content (set_context ∅ w))
    by (unfold open_rb_toml, bind, get_world; simpl; by rewrite Hp).
  rewrite Hdir.
  rewrite (bind_run _ _ _ (pathlib.of_str s) (set_context ∅ w)) by done.
  done.
Qed.

Lemma read_after_write m p w fn w1 :
  Model_valid class_fields m →
  write dump_node dump_edge m p w = (inr fn, w1) →
  ∃ ca cl cs cr,
    child_fields ca = child_fields (allocation m)
    ∧ child_fields cl = child_fields (logging m)
    ∧ child_fields cs = child_fields (solver m)
    ∧ child_fields cr = child_fields (results m)
    ∧ read class_fields table_names p w1
      = (inr (reread dump_node dump_edge table_names m p ca cl cs cr), w1).
Proof.
  intros (Ht0 & Ht1 & Hid & Hrd & Hwfi & Hwfr & Hga & Hgl & Hgs & Hgr)
         (-> & Hsuf & Hctx & Hp & Hdb)%write_files.
  assert (Hin : ∀ k, bool_decide (k ∈ model_fields) = true → k ∈ model_fields)
    by (intros k; apply bool_decide_eq_true_1).
  destruct (validate_child_toml dump_node dump_edge class_fields m
              "allocation" "Allocation" (allocation m))
    as (ca & Hca & Hfa); [done|by apply Hin|done|done|].
  destruct (validate_child_toml dump_node dump_edge class_fields m
              "logging" "Logging" (logging m))
    as (cl & Hcl & Hfl); [done|by apply Hin|done|done|].
  destruct (validate_child_toml dump_node dump_edge class_fields m
              "solver" "Solver" (solver m))
    as (cs & Hcs & Hfs); [done|by apply Hin|done|done|].
  destruct (validate_child_toml dump_node dump_edge class_fields m
              "results" "Results" (results m))
    as (cr & Hcr & Hfr); [done|by apply Hin|done|done|].
  exists ca, cl, cs, cr. do 4 (split; [done|]).
  unfold read, Model_init.
  erewrite bind_run;
    [|apply load_run; [exact Hp|
      apply (dict_get_path_toml _ _ m "input_dir" (input_dir m)); by try apply Hin]].
  rewrite (of_str_str (input_dir m)) by done.
  fold (database_path (pathlib.parent p) (input_dir m)).
  rewrite (bind_lift_inr _ _ (starttime m))
    by (apply validate_datetime_toml; by try apply Hin).
  rewrite (bind_lift_inr _ _ (endtime m))
    by (apply validate_datetime_toml; by try apply Hin).
  rewrite (bind_lift_inr _ _ (input_dir m))
    by (apply validate_path_toml; by try apply Hin).
  rewrite (bind_lift_inr _ _ (results_dir m))
    by (apply validate_path_toml; by try apply Hin).
  rewrite (bind_lift_inr _ _ ca) by done.
  rewrite (bind_lift_inr _ _ cl) by done.
  rewrite (bind_lift_inr _ _ cs) by done.
  rewrite (bind_lift_inr _ _ cr) by done.
  erewrite bind_run;
    [|apply (open_store_run _ (database_path (pathlib.parent p) (input_dir m))
               (stored m)); [apply lookup_insert_eq|exact Hdb]].
  unfold reset_contextvar, bind, context_set, ret, set_context. simpl.
  f_equal. destruct w1 as [f1 c1]. simpl in *. by subst c1.
Qed.

End RoundTrip.

(** ** Claims about the round trip and the context *)

Section EntryPoints.
Variable dump_node : string → MultiNodeModel Frame → list (string * Scalar).
Variable dump_edge : EdgeTable → list (string * Scalar).
Variable class_fields : string → list (string * Scalar).
Variable table_names : string → list string.

Lemma Model_init_context fp m w w' :
  Model_init class_fields table_names fp w = (inr m, w') →
  context_file_loading w' = ∅.
Proof.
  unfold Model_init.
  intros (? & ? & _ & (? & ? & _ & (? & ? & _ & (? & ? & _ & (? & ? & _
    & (? & ? & _ & (? & ? & _ & (? & ? & _ & (? & ? & _ & (? & ? & _
    & Hreset)%bind_inr)%bind_inr)%bind_inr)%bind_inr)%bind_inr)%bind_inr
    )%bind_inr)%bind_inr)%bind_inr)%bind_inr.
  unfold reset_contextvar in Hreset.
  apply bind_inr in Hreset as ([] & ? & [= <-] & [= _ <-]). done.
Qed.

(** C6 (as the code has it): when a [read] or [write] returns normally,
    the context is empty again. In between, within this call: [write]
    runs [_save] from a world whose context is empty, [_save] leaves the
    store path in the context, and the rest of the call starts from
    there; [read] starts with [_load], which records the directory and
    the store path. *)
Theorem context_cleared_on_return (c : Call) (w w' : World) r :
  run_call dump_node dump_edge class_fields table_names c w = (inr r, w') →
  context_file_loading w' = ∅
  ∧ match c with
    | CallWrite m p =>
        ∃ w0 w1,
          (let* _ := context_set ∅ in mkdir (pathlib.parent p)) w = (inr tt, w0)
          ∧ _save m (pathlib.parent p) (input_dir m) w0 = (inr tt, w1)
          ∧ (let* fn := _write_toml dump_node dump_edge m p in
             let* _ := context_set ∅ in
             ret (inl fn)) w1 = (inr r, w')
          ∧ context_file_loading w0 = ∅
          ∧ context_file_loading w1
            = {["database" := database_path (pathlib.parent p) (input_dir m)]}
    | CallRead p =>
        ∃ config w1,
          _load (Some p) w = (inr config, w1)
          ∧ is_Some (context_file_loading w1 !! "directory")
          ∧ is_Some (context_file_loading w1 !! "database")
    end.
Proof.
  destruct c as [m p|p]; simpl.
  - intros (fn & w1 & Hw & [= <- <-])%bind_inr.
    pose proof Hw as (_ & _ & Hctx & _)%write_files. split; [done|].
    unfold write in Hw.
    destruct (negb (String.eqb (pathlib.suffix p) ".toml")); [done|].
    apply bind_inr in Hw as ([] & w2 & [= <-] & ([] & w3 & Hmk
      & ([] & w4 & Hsave & (fn' & w5 & Hwt & ([] & w6 & [= <-] & [= <- <-])%bind_inr
      )%bind_inr)%bind_inr)%bind_inr).
    pose proof Hmk as (fA & _ & ->)%mkdir_inr.
    exists (set_fs fA (set_context ∅ w)), w4.
    split; [apply bind_inr; by exists tt, (set_context ∅ w)|].
    split; [done|].
    split.
    { apply bind_inr. exists fn', w5. split; [done|].
      apply bind_inr. by exists tt, (set_context ∅ w5). }
    split; [done|].
    apply Model_save_inr in Hsave as (fB & _ & _ & ->). simpl.
    by rewrite insert_empty.
  - intros (m & w1 & Hr & [= <- <-])%bind_inr.
    split; [by eapply Model_init_context|].
    unfold read, Model_init in Hr.
    apply bind_inr in Hr as (config & w2 & Hload & _).
    exists config, w2. split; [done|].
    unfold _load in Hload.
    apply bind_inr in Hload as ([] & w3 & [= <-] & (cfg & w4 & _
      & (input & w5 & _ & ([] & w6 & [= <-] & ([] & w7 & [= <-] & [= _ <-])%bind_inr
      )%bind_inr)%bind_inr)%bind_inr).
    simpl. rewrite lookup_insert_ne, !lookup_insert_eq by done. eauto.
Qed.

Lemma MultiNodeModels_unfold {D} (m : Model D) :
  MultiNodeModels m
  = [ ("Basin", basin m); ("LinearResistance", linear_resistance m);
      ("ManningResistance", manning_resistance m);
      ("TabulatedRatingCurve", tabulated_rating_curve m);
      ("FractionalFlow", fractional_flow m); ("Pump", pump m);
      ("LevelBoundary", level_boundary m); ("FlowBoundary", flow_boundary m);
      ("Outlet", outlet m); ("Terminal", terminal m);
      ("DiscreteControl", discrete_control m); ("PidControl", pid_control m);
      ("UserDemand", user_demand m); ("LevelDemand", level_demand m) ].
Proof. reflexivity. Qed.

Lemma node_rows_unfold (m : Model Frame) :
  node_rows m
  = (λ nd, (nd.1, df_rows (node nd.2)))
      <$> [ ("Basin", basin m); ("LinearResistance", linear_resistance m);
            ("ManningResistance", manning_resistance m);
            ("TabulatedRatingCurve", tabulated_rating_curve m);
            ("FractionalFlow", fractional_flow m); ("Pump", pump m);
            ("LevelBoundary", level_boundary m); ("FlowBoundary", flow_boundary m);
            ("Outlet", outlet m); ("Terminal", terminal m);
            ("DiscreteControl", discrete_control m); ("PidControl", pid_control m);
            ("UserDemand", user_demand m); ("LevelDemand", level_demand m) ].
Proof. reflexivity. Qed.

Lemma reread_node_rows m p ca cl cs cr :
  node_rows (reread dump_node dump_edge table_names m p ca cl cs cr)
  = node_rows m.
Proof.
  rewrite (node_rows_unfold m), (node_rows_unfold (reread _ _ _ _ _ _ _ _ _)).
  unfold reread, model_post_init.
  cbn [basin linear_resistance manning_resistance tabulated_rating_curve
       fractional_flow pump level_boundary flow_boundary outlet terminal
       discrete_control pid_control user_demand level_demand].
  rewrite !fmap_cons. cbn [fst snd].
  do 13 (f_equal; [f_equal; refine (stored_node_rows m _ _ _);
                   rewrite MultiNodeModels_unfold;
                   apply list_elem_of_In; simpl; tauto|]).
  do 2 f_equal. refine (stored_node_rows m _ _ _).
  rewrite MultiNodeModels_unfold. apply list_elem_of_In; simpl; tauto.
Qed.

Lemma reread_edge_rows m p ca cl cs cr :
  edge_rows (reread dump_node dump_edge table_names m p ca cl cs cr)
  = edge_rows m.
Proof.
  unfold edge_rows. simpl. fold (cur_edge (stored m)). by rewrite stored_edge.
Qed.

(** C1: for a model with populated sub-models, [read] after a successful
    [write] succeeds and gives a model with the same start and end time,
    the same directories, the same values of the settings fields, the same
    edge rows and, per node class, the same node rows, both up to their
    order (an absent node table comes back as an empty one). [Model_valid]
    is the invariant of a [Model] object. *)
Theorem write_read_roundtrip (m : Model Frame) (p fn : Path) (w w1 : World) :
  Model_valid class_fields m →
  _nodes rows_empty m ≠ [] →
  write dump_node dump_edge m p w = (inr fn, w1) →
  ∃ m' w2,
    read class_fields table_names fn w1 = (inr m', w2)
    ∧ starttime m' = starttime m
    ∧ endtime m' = endtime m
    ∧ input_dir m' = input_dir m
    ∧ results_dir m' = results_dir m
    ∧ child_fields (allocation m') = child_fields (allocation m)
    ∧ child_fields (logging m') = child_fields (logging m)
    ∧ child_fields (solver m') = child_fields (solver m)
    ∧ child_fields (results m') = child_fields (results m)
    ∧ same_node_rows m' m
    ∧ edge_rows m' ≡ₚ edge_rows m.
Proof.
  intros Hvalid _ Hw.
  pose proof Hw as (-> & _)%write_files.
  destruct (read_after_write dump_node dump_edge class_fields table_names
              m p w p w1 Hvalid Hw)
    as (ca & cl & cs & cr & Ha & Hl & Hs & Hr & Hread).
  eexists _, _. split; [exact Hread|].
  do 8 (split; [done|]). split.
  - unfold same_node_rows. rewrite reread_node_rows.
    apply Forall_Forall2_diag, Forall_forall. by intros [cls rows] _.
  - by rewrite reread_edge_rows.
Qed.

End EntryPoints.

(** ** The claims on the example models *)

Lemma write_rejects_other_suffix_witness :
  pathlib.suffix Scenario.csv_path ≠ ".toml"
  ∧ write Scenario.dump_node Scenario.dump_edge Scenario.model
          Scenario.csv_path Scenario.world
    = (inl ValueError, Scenario.world).
Proof.
  split; [done|].
  apply (write_rejects_other_suffix Scenario.dump_node Scenario.dump_edge
           Scenario.model Scenario.csv_path Scenario.world).
  done.
Defined.

Example write_scenario :
  ∃ w', write Scenario.dump_node Scenario.dump_edge Scenario.model
              Scenario.toml_path Scenario.world
        = (inr Scenario.toml_path, w')
    ∧ context_file_loading w' = ∅
    ∧ fs w' !! mkPath false ["model"] = Some Dir
    ∧ fs w' !! Scenario.toml_path
      = Some (TomlFile
                [("starttime", VScalar (SDatetime 20200101));
                 ("endtime", VScalar (SDatetime 20201231));
                 ("input_dir", VScalar (SStr "."));
                 ("results_dir", VScalar (SStr "results"));
                 ("solver", VDict [("abstol", SFloat 4472406533629990549)]);
                 ("ribasim_version", VScalar (SStr "0.2.0"))])
    ∧ ∃ db, fs w' !! mkPath false ["model"; "database.gpkg"] = Some (Gpkg db)
        ∧ node_layers db !! "Basin" = Some Scenario.basin_rows
        ∧ node_layers db !! "Pump" = Some Scenario.pump_rows
        ∧ node_layers db !! "Terminal" = None
        ∧ edge_layer db = Some [Scenario.flow_edge].
Proof.
  eexists. split; [vm_compute; reflexivity|].
  split; [done|]. split; [done|]. split; [done|].
  eexists. split; [vm_compute; reflexivity|]. done.
Qed.

Lemma write_config_contents_witness :
  ∃ w', write Scenario.dump_node Scenario.dump_edge
              (model_post_init Scenario.model) Scenario.toml_path Scenario.world
        = (inr Scenario.toml_path, w')
    ∧ ∃ content,
        fs w' !! Scenario.toml_path = Some (TomlFile content)
        ∧ (∀ k, k ∈ content.*1 →
             k = "ribasim_version"
             ∨ k ∈ model_fields_set (model_post_init Scenario.model))
        ∧ (∀ key cls c d k,
             getattr (model_post_init Scenario.model) key = Some (AChild cls c) →
             (key, VDict d) ∈ content → k ∈ d.*1 → k ∈ child_fields_set c)
        ∧ (∀ k v, (k, v) ∈ content → none_free v)
        ∧ dict_get "input_dir" content
          = Some (VScalar (SStr (pathlib.str (input_dir Scenario.model))))
        ∧ dict_get "results_dir" content
          = Some (VScalar (SStr (pathlib.str (results_dir Scenario.model))))
        ∧ dict_get "ribasim_version" content = Some (VScalar (SStr __version__)).
Proof.
  eexists. split; [vm_compute; reflexivity|].
  eapply (write_config_contents Scenario.dump_node Scenario.dump_edge
            Scenario.model Scenario.toml_path Scenario.toml_path Scenario.world).
  vm_compute. reflexivity.
Defined.

Lemma write_idempotent_witness :
  ∃ w1, write Scenario.dump_node Scenario.dump_edge Scenario.model
              Scenario.toml_path Scenario.world
        = (inr Scenario.toml_path, w1)
    ∧ write Scenario.dump_node Scenario.dump_edge Scenario.model
            Scenario.toml_path w1
      = (inr Scenario.toml_path, w1)
    ∧ fs w1 !! Scenario.toml_path
      = Some (TomlFile (toml_content Scenario.dump_node Scenario.dump_edge
                          Scenario.model))
    ∧ fs w1 !! database_path (pathlib.parent Scenario.toml_path)
                             (input_dir Scenario.model)
      = Gpkg <$> stored Scenario.model.
Proof.
  eexists. split; [vm_compute; reflexivity|].
  eapply (write_idempotent Scenario.dump_node Scenario.dump_edge Scenario.model
            Scenario.toml_path Scenario.toml_path Scenario.world).
  vm_compute. reflexivity.
Defined.

(** C6 (as the specification states it) fails on a failure path: when the
    target of the write exists as a directory, [_write_toml] raises after
    [_save] has recorded the store path, and [write] returns with that
    path still in the context. *)
Lemma context_left_set_on_failure :
  context_file_loading Scenario.world_blocked = ∅
  ∧ ∃ w', run_call Scenario.dump_node Scenario.dump_edge
                   Scenario.class_fields Scenario.table_names
                   (CallWrite Scenario.model Scenario.toml_path)
                   Scenario.world_blocked
          = (inl IsADirectoryError, w')
      ∧ context_file_loading w'
        = {["database" := mkPath false ["model"; "database.gpkg"]]}
      ∧ context_file_loading w' ≠ ∅.
Proof.
  split; [done|]. eexists. split; [vm_compute; reflexivity|].
  split; [by vm_compute|].
  intros Hctx. apply (f_equal (λ c, c !! "database")) in Hctx. by vm_compute in Hctx.
Qed.

(** The same on the reading side: a configuration file without a start
    time fails validation after [_load] has filled the context. *)
Example context_left_set_on_failed_read :
  ∃ w', run_call Scenario.dump_node Scenario.dump_edge
                 Scenario.class_fields Scenario.table_names
                 (CallRead Scenario.toml_path)
                 (mkWorld {[ Scenario.toml_path := TomlFile [] ]} ∅)
        = (inl ValidationError, w')
    ∧ context_file_loading w' !! "directory" = Some (mkPath false ["model"])
    ∧ context_file_loading w' !! "database"
      = Some (mkPath false ["model"; "database.gpkg"]).
Proof. eexists. split; [vm_compute; reflexivity|]. by vm_compute. Qed.

Lemma context_cleared_on_return_witness :
  ∃ w', run_call Scenario.dump_node Scenario.dump_edge
                 Scenario.class_fields Scenario.table_names
                 (CallWrite Scenario.model Scenario.toml_path) Scenario.world
        = (inr (inl Scenario.toml_path), w')
    ∧ context_file_loading w' = ∅
    ∧ ∃ w0 w1,
        (let* _ := context_set ∅ in mkdir (pathlib.parent Scenario.toml_path))
          Scenario.world = (inr tt, w0)
        ∧ _save Scenario.model (pathlib.parent Scenario.toml_path)
                (input_dir Scenario.model) w0 = (inr tt, w1)
        ∧ (let* fn := _write_toml Scenario.dump_node Scenario.dump_edge
                        Scenario.model Scenario.toml_path in
           let* _ := context_set ∅ in
           ret (A := Path + Model Frame) (inl fn)) w1
          = (inr (inl Scenario.toml_path), w')
        ∧ context_file_loading w0 = ∅
        ∧ context_file_loading w1
          = {["database" := database_path (pathlib.parent Scenario.toml_path)
                                          (input_dir Scenario.model)]}.
Proof.
  eexists. split; [vm_compute; reflexivity|].
  eapply (context_cleared_on_return Scenario.dump_node Scenario.dump_edge
            Scenario.class_fields Scenario.table_names
            (CallWrite Scenario.model Scenario.toml_path) Scenario.world).
  vm_compute. reflexivity.
Defined.

Lemma write_read_roundtrip_witness :
  Model_valid Scenario.class_fields Scenario.model
  ∧ _nodes rows_empty Scenario.model ≠ []
  ∧ ∃ w1,
      write Scenario.dump_node Scenario.dump_edge Scenario.model
            Scenario.toml_path Scenario.world
      = (inr Scenario.toml_path, w1)
      ∧ ∃ m' w2,
          read Scenario.class_fields Scenario.table_names Scenario.toml_path w1
          = (inr m', w2)
          ∧ starttime m' = starttime Scenario.model
          ∧ endtime m' = endtime Scenario.model
          ∧ input_dir m' = input_dir Scenario.model
          ∧ results_dir m' = results_dir Scenario.model
          ∧ child_fields (allocation m') = child_fields (allocation Scenario.model)
          ∧ child_fields (logging m') = child_fields (logging Scenario.model)
          ∧ child_fields (solver m') = child_fields (solver Scenario.model)
          ∧ child_fields (results m') = child_fields (results Scenario.model)
          ∧ same_node_rows m' Scenario.model
          ∧ edge_rows m' ≡ₚ edge_rows Scenario.model.
Proof.
  assert (Hvalid : Model_valid Scenario.class_fields Scenario.model)
    by (apply (bool_decide_unpack _); vm_compute; reflexivity).
  split; [exact Hvalid|]. split; [done|].
  eexists. split; [vm_compute; reflexivity|].
  eapply (write_read_roundtrip Scenario.dump_node Scenario.dump_edge
            Scenario.class_fields Scenario.table_names
            Scenario.model Scenario.toml_path Scenario.toml_path Scenario.world).
  - exact Hvalid.
  - done.
  - vm_compute. reflexivity.
Defined.

Example read_scenario :
  ∃ w1 m' w2,
    write Scenario.dump_node Scenario.dump_edge Scenario.model
          Scenario.toml_path Scenario.world
    = (inr Scenario.toml_path, w1)
    ∧ read Scenario.class_fields Scenario.table_names Scenario.toml_path w1
      = (inr m', w2)
    ∧ filepath m' = Some Scenario.toml_path
    ∧ df (node (basin m')) = Some Scenario.basin_rows
    ∧ df (node (pump m')) = Some Scenario.pump_rows
    ∧ df (node (terminal m')) = Some []
    ∧ df (node (terminal Scenario.model)) = None
    ∧ edge_df (edge m') = Some [Scenario.flow_edge]
    ∧ child_fields (solver m') = child_fields Scenario.tight_solver.
Proof.
  eexists _, _, _. split; [vm_compute; reflexivity|].
  split; [vm_compute; reflexivity|]. done.
Qed.

(** * Further properties *)

(** ** File names that [write] rejects *)

Section SuffixFacts.
Import pathlib.

Lemma string_length_app (a b : string) :
  String.length (a +:+ b) = (String.length a + String.length b)%nat.
Proof.
  induction a as [|x a IH]; [done|].
  change (String x a +:+ b) with (String x (a +:+ b)). simpl. by rewrite IH.
Qed.

Lemma rfind_app c (a b : string) :
  rfind c (a +:+ b)
  = match rfind c b with
    | Some j => Some (String.length a + j)%nat
    | None => rfind c a
    end.
Proof.
  induction a as [|x a IH].
  - change ("" +:+ b) with b. simpl. by destruct (rfind c b).
  - change (String x a +:+ b) with (String x (a +:+ b)).
    cbn [rfind]. rewrite IH. by destruct (rfind c b).
Qed.

Lemma drop_chars_app (a b : string) : drop_chars (String.length a) (a +:+ b) = b.
Proof.
  induction a as [|x a IH]; [done|].
  change (String x a +:+ b) with (String x (a +:+ b)). simpl. exact IH.
Qed.

Lemma drop_chars_split (i : nat) (s : string) :
  (i ≤ String.length s)%nat →
  ∃ stem, s = stem +:+ drop_chars i s ∧ String.length stem = i.
Proof.
  revert s. induction i as [|i IH]; intros s Hi.
  - by exists "".
  - destruct s as [|x s]; simpl in Hi; [lia|].
    destruct (IH s) as (stem & Hs & Hlen); [lia|].
    exists (String x stem). simpl.
    change (String x stem +:+ drop_chars i s) with (String x (stem +:+ drop_chars i s)).
    split; [by rewrite <- Hs | by rewrite Hlen].
Qed.

(** The suffix of a path is [.toml] exactly when its final component is a
    non-empty stem followed by [.toml]. *)
Lemma suffix_toml_iff (p : Path) :
  suffix p = ".toml" ↔ ∃ stem, stem ≠ "" ∧ name p = stem +:+ ".toml".
Proof.
  unfold suffix. split.
  - destruct (rfind "." (name p)) as [i|] eqn:Hfind; [|done].
    case_bool_decide as Hi; [|done]. intros Hdrop.
    destruct (drop_chars_split i (name p)) as (stem & Hs & Hlen); [lia|].
    exists stem. split; [intros ->; simpl in Hlen; lia|].
    by rewrite <- Hdrop.
  - intros (stem & Hne & ->).
    rewrite rfind_app. change (rfind "." ".toml") with (Some 0%nat).
    cbv beta iota. rewrite Nat.add_0_r, string_length_app, drop_chars_app.
    rewrite bool_decide_true; [done|].
    destruct stem; [done|]. simpl. lia.
Qed.

End SuffixFacts.

Section WriteNames.
Variable dump_node : string → MultiNodeModel (list NodeRow) → list (string * Scalar).
Variable dump_edge : EdgeTable → list (string * Scalar).

(** X1: [write] accepts a file name only if it is a non-empty stem
    followed by [.toml]. For every other name, such as [.toml] itself,
    [model.toml.] or [model.TOML], it raises [ValueError] and leaves the
    file system and the context as they were. *)
Theorem write_rejects_names (m : Model (list NodeRow)) (p : Path) (w : World) :
  (¬ ∃ stem, stem ≠ "" ∧ pathlib.name p = stem +:+ ".toml") →
  write dump_node dump_edge m p w = (inl ValueError, w).
Proof. intros Hname. apply write_other_suffix. by rewrite suffix_toml_iff. Qed.

End WriteNames.

Lemma write_rejects_names_witness :
  (¬ ∃ stem, stem ≠ "" ∧ pathlib.name (mkPath false ["model"; ".toml"])
                         = stem +:+ ".toml")
  ∧ write Scenario.dump_node Scenario.dump_edge Scenario.model
          (mkPath false ["model"; ".toml"]) Scenario.world
    = (inl ValueError, Scenario.world).
Proof.
  assert (H : ¬ ∃ stem, stem ≠ "" ∧ pathlib.name (mkPath false ["model"; ".toml"])
                                   = stem +:+ ".toml").
  { intros Hstem%suffix_toml_iff. vm_compute in Hstem. discriminate. }
  split; [exact H|].
  exact (write_rejects_names Scenario.dump_node Scenario.dump_edge Scenario.model
           (mkPath false ["model"; ".toml"]) Scenario.world H).
Defined.

(** ** The file system after [write] *)

Section WriteFrame.
Variable dump_node : string → MultiNodeModel (list NodeRow) → list (string * Scalar).
Variable dump_edge : EdgeTable → list (string * Scalar).

Lemma mkdir_from_other anchor pre todo (f f' : gmap Path FsNode) q :
  mkdir_from anchor pre todo f = inr f' →
  q ∉ ancestors_from anchor pre todo → f' !! q = f !! q.
Proof.
  revert pre f. induction todo as [|c rest IH]; intros pre f Hrun Hq; simpl in *.
  - by simplify_eq.
  - apply not_elem_of_cons in Hq as [Hne Hq].
    destruct (f !! mkPath anchor (pre ++ [c])) as [[| |]|] eqn:Hc; try done.
    + by eapply IH.
    + rewrite (IH _ _ Hrun Hq). by rewrite lookup_insert_ne.
Qed.

Lemma mkdir_from_lookup anchor pre todo (f f' : gmap Path FsNode) q :
  mkdir_from anchor pre todo f = inr f' →
  f' !! q = if decide (q ∈ ancestors_from anchor pre todo) then Some Dir
            else f !! q.
Proof.
  intros Hrun. case_decide as Hq.
  - pose proof (mkdir_from_dirs _ _ _ _ _ Hrun) as Hall.
    rewrite Forall_forall in Hall. by apply Hall.
  - by eapply mkdir_from_other.
Qed.

(** X2: for parsed paths without [..] under one anchor: after a successful
    [write], every directory on the way to the configuration file and to
    the geometry store exists, and apart from these directories, the
    configuration file and the store, every such path holds what it held
    before. *)
Theorem write_frame (m : Model (list NodeRow)) (p fn : Path) (w w1 : World) :
  dotdot_free p →
  dotdot_free (input_dir m) →
  (pathlib.absolute (input_dir m) = true → pathlib.absolute p = true) →
  write dump_node dump_edge m p w = (inr fn, w1) →
  let store_dir := pathlib.joinpath (pathlib.parent p) (input_dir m) in
  let db := database_path (pathlib.parent p) (input_dir m) in
  fn = p
  ∧ Forall (λ q, fs w1 !! q = Some Dir)
           (ancestors (pathlib.parent p) ++ ancestors store_dir)
  ∧ is_dir (fs w1) (pathlib.parent p) = true
  ∧ is_dir (fs w1) store_dir = true
  ∧ ∀ q, dotdot_free q → pathlib.absolute q = pathlib.absolute p →
         q ≠ p → q ≠ db →
         q ∉ ancestors (pathlib.parent p) ++ ancestors store_dir →
         fs w1 !! q = fs w !! q.
Proof.
  intros _ _ _
         (Hsuf & -> & fA & fB & HfA & HfB & Hdb & Hp & Hdir & ->)%write_inr
         store_dir db.
  fold db in HfB, Hdb, Hp, Hdir.
  assert (Hparent : pathlib.parent db = store_dir) by apply parent_database_path.
  rewrite Hparent in HfB.
  set (fD := store_fs (delete db fB) db (stored m)) in *.
  assert (Hne : p ≠ db) by by apply toml_path_ne_database.
  assert (Hother : ∀ q, q ≠ p → q ≠ db →
            (<[p := TomlFile (toml_content dump_node dump_edge m)]> fD) !! q
            = fB !! q).
  { intros q Hqp Hqdb. rewrite lookup_insert_ne by done.
    subst fD. destruct (stored m); simpl;
      rewrite ?lookup_insert_ne, lookup_delete_ne; done. }
  assert (Hdirs : Forall (λ q, fB !! q = Some Dir)
                         (ancestors (pathlib.parent p) ++ ancestors store_dir)).
  { apply Forall_app. split.
    - eapply Forall_impl; [by eapply mkdir_from_dirs|].
      intros q Hq. by eapply mkdir_from_keeps.
    - by eapply mkdir_from_dirs. }
  assert (Hdirs1 : Forall (λ q, fs (mkWorld
              (<[p := TomlFile (toml_content dump_node dump_edge m)]> fD) ∅) !! q
              = Some Dir)
            (ancestors (pathlib.parent p) ++ ancestors store_dir)).
  { eapply Forall_impl; [exact Hdirs|]. intros q Hq. simpl in *.
    rewrite Hother; [done| |by intros ->].
    intros ->. apply Hp. subst fD.
    destruct (stored m); simpl; rewrite ?lookup_insert_ne, lookup_delete_ne; done. }
  split; [done|]. split; [exact Hdirs1|].
  apply Forall_app in Hdirs1 as [Hd1 Hd2].
  split; [by apply is_dir_ancestors|]. split; [by apply is_dir_ancestors|].
  intros q _ _ Hqp Hqdb [Hq1 Hq2]%not_elem_of_app. simpl.
  rewrite Hother by done.
  rewrite (mkdir_from_other _ _ _ _ _ _ HfB Hq2).
  by rewrite (mkdir_from_other _ _ _ _ _ _ HfA Hq1).
Qed.

End WriteFrame.

Lemma write_frame_witness :
  dotdot_free Scenario.toml_path
  ∧ dotdot_free (input_dir Scenario.model)
  ∧ (pathlib.absolute (input_dir Scenario.model) = true →
     pathlib.absolute Scenario.toml_path = true)
  ∧ ∃ w1, write Scenario.dump_node Scenario.dump_edge Scenario.model
                Scenario.toml_path Scenario.world
          = (inr Scenario.toml_path, w1)
      ∧ Scenario.toml_path = Scenario.toml_path
      ∧ Forall (λ q, fs w1 !! q = Some Dir)
          (ancestors (pathlib.parent Scenario.toml_path)
           ++ ancestors (pathlib.joinpath (pathlib.parent Scenario.toml_path)
                                          (input_dir Scenario.model)))
      ∧ is_dir (fs w1) (pathlib.parent Scenario.toml_path) = true
      ∧ is_dir (fs w1) (pathlib.joinpath (pathlib.parent Scenario.toml_path)
                                         (input_dir Scenario.model)) = true
      ∧ ∀ q, dotdot_free q →
             pathlib.absolute q = pathlib.absolute Scenario.toml_path →
             q ≠ Scenario.toml_path →
             q ≠ database_path (pathlib.parent Scenario.toml_path)
                               (input_dir Scenario.model) →
             q ∉ ancestors (pathlib.parent Scenario.toml_path)
                 ++ ancestors (pathlib.joinpath (pathlib.parent Scenario.toml_path)
                                                (input_dir Scenario.model)) →
             fs w1 !! q = fs Scenario.world !! q.
Proof.
  assert (H1 : dotdot_free Scenario.toml_path)
    by (apply (bool_decide_unpack _); vm_compute; reflexivity).
  assert (H2 : dotdot_free (input_dir Scenario.model))
    by (apply (bool_decide_unpack _); vm_compute; reflexivity).
  assert (H3 : pathlib.absolute (input_dir Scenario.model) = true →
               pathlib.absolute Scenario.toml_path = true)
    by (vm_compute; discriminate).
  split; [exact H1|]. split; [exact H2|]. split; [exact H3|].
  eexists. split; [vm_compute; reflexivity|].
  eapply (write_frame Scenario.dump_node Scenario.dump_edge Scenario.model
            Scenario.toml_path Scenario.toml_path Scenario.world _ H1 H2 H3).
  vm_compute. reflexivity.
Defined.

(** ** The layers of the store after [write] *)

Section StoreLayers.
Variable dump_node : string → MultiNodeModel (list NodeRow) → list (string * Scalar).
Variable dump_edge : EdgeTable → list (string * Scalar).

Lemma foldl_param_step_params cls cur ts c t :
  c ≠ cls →
  cur_params (foldl (param_step cls) cur ts) !! (c, t) = cur_params cur !! (c, t).
Proof.
  intros Hne. revert cur. induction ts as [|[t' rows] ts IH]; intros cur; simpl; [done|].
  rewrite IH. unfold param_step. simpl. destruct rows as [rows|]; [|done].
  unfold cur_params. simpl. rewrite lookup_insert_ne; [done|congruence].
Qed.

Lemma node_step_params cur nd c t :
  c ≠ nd.1 → cur_params (node_step cur nd) !! (c, t) = cur_params cur !! (c, t).
Proof.
  intros Hne. unfold node_step. rewrite foldl_param_step_params by done.
  by destruct (df (node nd.2)).
Qed.

Lemma foldl_node_step_params cur nds c t :
  c ∉ nds.*1 →
  cur_params (foldl node_step cur nds) !! (c, t) = cur_params cur !! (c, t).
Proof.
  revert cur. induction nds as [|nd nds IH]; intros cur Hc; simpl; [done|].
  apply not_elem_of_cons in Hc as [Hne Hc].
  rewrite IH by done. by apply node_step_params.
Qed.

Lemma foldl_param_step_Some cls cur ts :
  is_Some cur → is_Some (foldl (param_step cls) cur ts).
Proof.
  revert cur. induction ts as [|[t rows] ts IH]; intros cur Hcur; simpl; [done|].
  apply IH. unfold param_step. simpl. by destruct rows.
Qed.

Lemma node_step_Some cur nd :
  is_Some cur ∨ is_Some (df (node nd.2)) → is_Some (node_step cur nd).
Proof.
  intros Hor. unfold node_step. apply foldl_param_step_Some.
  destruct (df (node nd.2)); [done|]. by destruct Hor as [?|[? ?]].
Qed.

Lemma foldl_node_step_Some cur nds :
  is_Some cur → is_Some (foldl node_step cur nds).
Proof.
  revert cur. induction nds as [|nd nds IH]; intros cur Hcur; simpl; [done|].
  apply IH, node_step_Some. by left.
Qed.

Lemma stored_None (m : Model (list NodeRow)) :
  stored m = None ↔ edge_df (edge m) = None ∧ _nodes rows_empty m = [].
Proof.
  unfold stored. split.
  - intros Hnone.
    destruct (edge_df (edge m)) as [rows|] eqn:Hedge.
    + pose proof (foldl_node_step_Some (edge_step None (edge m))
                    (_nodes rows_empty m)) as [d Hd];
        [unfold edge_step; by rewrite Hedge|congruence].
    + split; [done|].
      destruct (_nodes rows_empty m) as [|[cls sub] nds] eqn:Hnodes; [done|].
      assert ((cls, sub) ∈ _nodes rows_empty m) as Hin by (rewrite Hnodes; left).
      apply elem_of_nodes in Hin as [_ (rows & Hrows & _)%populated_spec].
      simpl in Hnone.
      pose proof (foldl_node_step_Some
                    (node_step (edge_step None (edge m)) (cls, sub)) nds) as [d Hd];
        [apply node_step_Some; right; simpl; by rewrite Hrows|congruence].
  - intros [Hedge ->]. simpl. unfold edge_step. by rewrite Hedge.
Qed.

Lemma unpopulated_not_saved {D} (df_empty : D → bool) (m : Model D) cls sub :
  (cls, sub) ∈ MultiNodeModels m →
  populated df_empty sub = false →
  cls ∉ (_nodes df_empty m).*1.
Proof.
  intros Hin Hpop. rewrite nodes_filter.
  intros ([c sub'] & Hc & [Hpop' Hin']%list_elem_of_filter)%list_elem_of_fmap.
  simpl in Hc. subst c.
  assert (sub' = sub) as ->
    by by eapply NoDup_fst_eq; [apply MultiNodeModels_NoDup|..].
  simpl in Hpop'. by rewrite Hpop in Hpop'.
Qed.

(** X3: after a successful [write] the geometry store holds the tables of
    the populated node classes and of no others: a class whose node table
    is absent or empty has no node layer and none of its parameter tables
    is saved; a populated class has its node rows in its layer; the edge
    layer holds the edge table. No store file exists exactly when neither
    the edge table nor any node table is populated. *)
Theorem write_store_layers (m : Model (list NodeRow)) (p fn : Path) (w w1 : World) :
  write dump_node dump_edge m p w = (inr fn, w1) →
  let db := database_path (pathlib.parent p) (input_dir m) in
  (fs w1 !! db = None ↔ edge_df (edge m) = None ∧ _nodes rows_empty m = [])
  ∧ ∀ d, fs w1 !! db = Some (Gpkg d) →
      edge_layer d = edge_df (edge m)
      ∧ ∀ cls sub, (cls, sub) ∈ MultiNodeModels m →
          if populated rows_empty sub
          then node_layers d !! cls = df (node sub)
          else node_layers d !! cls = None
               ∧ ∀ t, param_layers d !! (cls, t) = None.
Proof.
  intros (_ & _ & _ & _ & Hdb)%write_files db. fold db in Hdb. rewrite Hdb.
  split.
  - rewrite <- stored_None. by destruct (stored m).
  - intros d Hd. destruct (stored m) as [d'|] eqn:Hst; simplify_eq/=.
    split.
    { change (cur_edge (Some d) = edge_df (edge m)). rewrite <- Hst.
      apply stored_edge. }
    intros cls sub Hin. destruct (populated rows_empty sub) eqn:Hpop.
    + pose proof Hpop as (rows & Hrows & _)%populated_spec.
      change (cur_nodes (Some d) !! cls = df (node sub)). rewrite <- Hst, Hrows.
      unfold stored. rewrite nodes_filter.
      apply (foldl_node_step_lookup _ _ cls sub);
        [apply NoDup_filter_fst, MultiNodeModels_NoDup| |done].
      apply list_elem_of_filter. split; [simpl; by rewrite Hpop|done].
    + pose proof (unpopulated_not_saved rows_empty m cls sub Hin Hpop) as Hcls.
      split.
      * change (cur_nodes (Some d) !! cls = None). rewrite <- Hst.
        unfold stored. rewrite foldl_node_step_other by done.
        unfold edge_step. by destruct (edge_df (edge m)).
      * intros t. change (cur_params (Some d) !! (cls, t) = None). rewrite <- Hst.
        unfold stored. rewrite foldl_node_step_params by done.
        unfold edge_step. by destruct (edge_df (edge m)).
Qed.

End StoreLayers.

Lemma write_store_layers_witness :
  ∃ w1, write Scenario.dump_node Scenario.dump_edge Scenario.model
              Scenario.toml_path Scenario.world
        = (inr Scenario.toml_path, w1)
    ∧ let db := database_path (pathlib.parent Scenario.toml_path)
                              (input_dir Scenario.model) in
      (fs w1 !! db = None ↔
         edge_df (edge Scenario.model) = None
         ∧ _nodes rows_empty Scenario.model = [])
      ∧ ∀ d, fs w1 !! db = Some (Gpkg d) →
          edge_layer d = edge_df (edge Scenario.model)
          ∧ ∀ cls sub, (cls, sub) ∈ MultiNodeModels Scenario.model →
              if populated rows_empty sub
              then node_layers d !! cls = df (node sub)
              else node_layers d !! cls = None
                   ∧ ∀ t, param_layers d !! (cls, t) = None.
Proof.
  eexists. split; [vm_compute; reflexivity|].
  eapply (write_store_layers Scenario.dump_node Scenario.dump_edge
            Scenario.model Scenario.toml_path Scenario.toml_path Scenario.world).
  vm_compute. reflexivity.
Defined.

(** ** What a successful [write] requires *)

Section WriteRequires.
Variable dump_node : string → MultiNodeModel (list NodeRow) → list (string * Scalar).
Variable dump_edge : EdgeTable → list (string * Scalar).

Lemma mkdir_from_free anchor pre todo (f f' : gmap Path FsNode) :
  mkdir_from anchor pre todo f = inr f' →
  Forall (λ q, f !! q = None ∨ f !! q = Some Dir) (ancestors_from anchor pre todo).
Proof.
  revert pre f. induction todo as [|c rest IH]; intros pre f Hrun; simpl in *.
  - constructor.
  - destruct (f !! mkPath anchor (pre ++ [c])) as [[| |]|] eqn:Hc; try done.
    + constructor; [by right|]. by eapply IH.
    + constructor; [by left|].
      eapply Forall_impl; [by eapply IH|]. intros q Hq. simpl in Hq.
      destruct (decide (q = mkPath anchor (pre ++ [c]))) as [->|Hne].
      * by left.
      * by rewrite lookup_insert_ne in Hq.
Qed.

(** X4: for parsed paths without [..] under one anchor, [write] returns only
    if the name ends in [.toml], every directory on the way to the
    configuration file and to the geometry store was either missing or a
    directory, neither the configuration path nor the store path was a
    directory, and neither of the two is itself one of the directories the
    call creates. *)
Theorem write_requires (m : Model (list NodeRow)) (p fn : Path) (w w1 : World) :
  dotdot_free p →
  dotdot_free (input_dir m) →
  (pathlib.absolute (input_dir m) = true → pathlib.absolute p = true) →
  write dump_node dump_edge m p w = (inr fn, w1) →
  let store_dir := pathlib.joinpath (pathlib.parent p) (input_dir m) in
  let db := database_path (pathlib.parent p) (input_dir m) in
  pathlib.suffix p = ".toml"
  ∧ Forall (λ q, fs w !! q = None ∨ fs w !! q = Some Dir)
           (ancestors (pathlib.parent p) ++ ancestors store_dir)
  ∧ (p ∉ ancestors store_dir)
  ∧ (db ∉ ancestors (pathlib.parent p))
  ∧ fs w !! p ≠ Some Dir
  ∧ fs w !! db ≠ Some Dir.
Proof.
  intros _ _ _
         (Hsuf & _ & fA & fB & HfA & HfB & Hdb & Hp & Hdir & ->)%write_inr
         store_dir db.
  assert (Hparent : pathlib.parent db = store_dir) by apply parent_database_path.
  assert (Hfd : ∀ q, q ≠ db →
            store_fs (delete db fB) db (stored m) !! q = fB !! q).
  { intros q Hq. destruct (stored m); simpl;
      rewrite ?lookup_insert_ne, lookup_delete_ne; done. }
  fold db in HfB, Hdb, Hp, Hdir. rewrite Hparent in HfB.
  assert (Hne : p ≠ db) by by apply toml_path_ne_database.
  rewrite Hfd in Hp by done.
  split; [done|]. split; [|split; [|split; [|split]]].
  - apply Forall_app. split; [by eapply mkdir_from_free|].
    pose proof (mkdir_from_free _ _ _ _ _ HfB) as Hall.
    pose proof (mkdir_from_free _ _ _ _ _ HfA) as HallA.
    rewrite Forall_forall in HallA.
    eapply Forall_impl; [exact Hall|]. intros q Hq. simpl in Hq.
    rewrite (mkdir_from_lookup _ _ _ _ _ q HfA) in Hq.
    case_decide as Hin; [by apply HallA|done].
  - intros Hin. apply Hp.
    pose proof (mkdir_from_dirs _ _ _ _ _ HfB) as Hall.
    rewrite Forall_forall in Hall. by apply Hall.
  - intros Hin. apply Hdb. eapply mkdir_from_keeps; [done|].
    pose proof (mkdir_from_dirs _ _ _ _ _ HfA) as Hall.
    rewrite Forall_forall in Hall. by apply Hall.
  - intros Hw. apply Hp. eapply mkdir_from_keeps; [done|].
    by eapply mkdir_from_keeps.
  - intros Hw. apply Hdb. eapply mkdir_from_keeps; [done|].
    by eapply mkdir_from_keeps.
Qed.

End WriteRequires.

Lemma write_requires_witness :
  dotdot_free Scenario.toml_path
  ∧ dotdot_free (input_dir Scenario.model)
  ∧ (pathlib.absolute (input_dir Scenario.model) = true →
     pathlib.absolute Scenario.toml_path = true)
  ∧ ∃ w1, write Scenario.dump_node Scenario.dump_edge Scenario.model
                Scenario.toml_path Scenario.world
          = (inr Scenario.toml_path, w1)
      ∧ pathlib.suffix Scenario.toml_path = ".toml"
      ∧ Forall (λ q, fs Scenario.world !! q = None
                     ∨ fs Scenario.world !! q = Some Dir)
          (ancestors (pathlib.parent Scenario.toml_path)
           ++ ancestors (pathlib.joinpath (pathlib.parent Scenario.toml_path)
                                          (input_dir Scenario.model)))
      ∧ (Scenario.toml_path
         ∉ ancestors (pathlib.joinpath (pathlib.parent Scenario.toml_path)
                                       (input_dir Scenario.model)))
      ∧ (database_path (pathlib.parent Scenario.toml_path)
                       (input_dir Scenario.model)
         ∉ ancestors (pathlib.parent Scenario.toml_path))
      ∧ fs Scenario.world !! Scenario.toml_path ≠ Some Dir
      ∧ fs Scenario.world
          !! database_path (pathlib.parent Scenario.toml_path)
                           (input_dir Scenario.model) ≠ Some Dir.
Proof.
  assert (H1 : dotdot_free Scenario.toml_path)
    by (apply (bool_decide_unpack _); vm_compute; reflexivity).
  assert (H2 : dotdot_free (input_dir Scenario.model))
    by (apply (bool_decide_unpack _); vm_compute; reflexivity).
  assert (H3 : pathlib.absolute (input_dir Scenario.model) = true →
               pathlib.absolute Scenario.toml_path = true)
    by (vm_compute; discriminate).
  split; [exact H1|]. split; [exact H2|]. split; [exact H3|].
  eexists. split; [vm_compute; reflexivity|].
  eapply (write_requires Scenario.dump_node Scenario.dump_edge Scenario.model
            Scenario.toml_path Scenario.toml_path Scenario.world _ H1 H2 H3).
  vm_compute. reflexivity.
Defined.

(** ** The fields of the configuration file *)

Section ConfigFields.
Variable dump_node : string → MultiNodeModel (list NodeRow) → list (string * Scalar).
Variable dump_edge : EdgeTable → list (string * Scalar).

Lemma version_not_field : "ribasim_version" ∉ model_fields.
Proof. apply (bool_decide_unpack _). by vm_compute. Qed.

Lemma toml_content_NoDup (m : Model (list NodeRow)) :
  NoDup (toml_content dump_node dump_edge m).*1.
Proof.
  unfold toml_content.
  set (d := filter (λ x : string * Value, truthy x.2)
              (model_dump dump_node dump_edge m)).
  assert (Hd : NoDup d.*1).
  { eapply sublist_NoDup; [apply (model_dump_NoDup dump_node dump_edge m)|].
    apply fmap_sublist, sublist_filter. }
  assert (Hv : "ribasim_version" ∉ d.*1).
  { intros ([k v] & Hk & [_ Hin]%list_elem_of_filter)%list_elem_of_fmap.
    simpl in Hk. subst k.
    apply elem_of_model_dump in Hin as [Hin _]. by apply version_not_field. }
  clearbody d. induction d as [|[k0 v0] d IH]; simpl.
  - apply NoDup_singleton.
  - simpl in Hd, Hv. apply NoDup_cons in Hd as [Hk0 Hd].
    apply not_elem_of_cons in Hv as [Hne Hv].
    case_decide; [done|]. simpl. apply NoDup_cons. split; [|by apply IH].
    intros ([k v] & Hk & Hin)%list_elem_of_fmap. simpl in Hk. subst k.
    apply elem_of_dict_set in Hin as [[-> _]|Hin]; [done|].
    apply Hk0. by apply (list_elem_of_fmap_2 fst _ (k0, v)).
Qed.

(** X5: the configuration document of a successful [write] has each key
    once and holds no falsy value, so no empty section. A declared field
    is in it exactly when it was set and its dump is truthy, with that
    dump as its value, and the only other key is [ribasim_version]. *)
Theorem write_config_fields (m : Model (list NodeRow)) (p fn : Path) (w w' : World) :
  write dump_node dump_edge m p w = (inr fn, w') →
  ∃ content,
    fs w' !! fn = Some (TomlFile content)
    ∧ NoDup content.*1
    ∧ (∀ k v, (k, v) ∈ content → truthy v = true)
    ∧ (∀ k, k ∈ content.*1 → k = "ribasim_version" ∨ k ∈ model_fields)
    ∧ (∀ k v, k ∈ model_fields →
         dict_get k content = Some v
         ↔ k ∈ model_fields_set m
           ∧ (getattr m k ≫= serialize dump_node dump_edge) = Some v
           ∧ truthy v = true).
Proof.
  intros (-> & _ & _ & Hp & _)%write_files.
  exists (toml_content dump_node dump_edge m).
  split; [done|]. split; [apply toml_content_NoDup|]. split; [|split].
  - intros k v [[-> ->]|[Ht _]%list_elem_of_filter]%elem_of_dict_set; [done|].
    simpl in Ht. by destruct (truthy v).
  - intros k ([k' v] & -> & Hin)%list_elem_of_fmap.
    apply elem_of_toml_content in Hin as [[-> _]|(Hf & _)]; auto.
  - intros k v Hk. rewrite dict_get_toml_content.
    case_decide as Hv; [subst k; by destruct version_not_field|].
    rewrite decide_True by done. unfold dump_field.
    case_decide as Hset.
    + destruct (getattr m k ≫= serialize dump_node dump_edge) as [v'|].
      * destruct (truthy v') eqn:Ht.
        -- split; [by intros [= ->] | by intros (_ & [= ->] & _)].
        -- split; [done|]. intros (_ & [= ->] & Ht'). congruence.
      * split; [done|]. by intros (_ & ? & _).
    + split; [done|]. by intros (? & _).
Qed.

End ConfigFields.

Lemma write_config_fields_witness :
  ∃ w', write Scenario.dump_node Scenario.dump_edge Scenario.model
              Scenario.toml_path Scenario.world
        = (inr Scenario.toml_path, w')
    ∧ ∃ content,
        fs w' !! Scenario.toml_path = Some (TomlFile content)
        ∧ NoDup content.*1
        ∧ (∀ k v, (k, v) ∈ content → truthy v = true)
        ∧ (∀ k, k ∈ content.*1 → k = "ribasim_version" ∨ k ∈ model_fields)
        ∧ (∀ k v, k ∈ model_fields →
             dict_get k content = Some v
             ↔ k ∈ model_fields_set Scenario.model
               ∧ (getattr Scenario.model k
                    ≫= serialize Scenario.dump_node Scenario.dump_edge) = Some v
               ∧ truthy v = true).
Proof.
  eexists. split; [vm_compute; reflexivity|].
  eapply (write_config_fields Scenario.dump_node Scenario.dump_edge
            Scenario.model Scenario.toml_path Scenario.toml_path Scenario.world).
  vm_compute. reflexivity.
Defined.

(** ** [_load] leaves the files alone *)

Section LoadFrame.
Variable class_fields : string → list (string * Scalar).
Variable table_names : string → list string.









End LoadFrame.


(** ** [_load] finds what [_save] wrote *)

Section LoadAfterWrite.
Variable dump_node : string → MultiNodeModel (list NodeRow) → list (string * Scalar).
Variable dump_edge : EdgeTable → list (string * Scalar).

Lemma input_dir_in_fields : "input_dir" ∈ model_fields.
Proof. apply (bool_decide_unpack _). by vm_compute. Qed.

(** X7: after a successful [write] of a model whose [input_dir] is a
    parsed path, [_load] on the returned path returns the document that
    was written, changes no file, and records as directory and store
    exactly the paths under which [_save] stored the tables; the store
    found there holds the model's tables. *)
Theorem load_after_write (m0 : Model (list NodeRow)) (p fn : Path) (w w1 : World) :
  let m := model_post_init m0 in
  pathlib.Path_wf (input_dir m0) →
  write dump_node dump_edge m p w = (inr fn, w1) →
  ∃ config w2,
    _load (Some fn) w1 = (inr config, w2)
    ∧ fs w1 !! fn = Some (TomlFile config)
    ∧ fs w2 = fs w1
    ∧ context_file_loading w2 !! "directory"
      = Some (pathlib.joinpath (pathlib.parent p) (input_dir m0))
    ∧ context_file_loading w2 !! "database"
      = Some (database_path (pathlib.parent p) (input_dir m0))
    ∧ dom (context_file_loading w2) = {["directory"; "database"]}
    ∧ open_store w2 = (inr (default empty_database (stored m)), w2).
Proof.
  intros m Hwf (-> & _ & _ & Hp & Hdb)%write_files.
  assert (Hdir : dict_get "input_dir" (toml_content dump_node dump_edge m)
                 = Some (VScalar (SStr (pathlib.str (input_dir m0))))).
  { apply dict_get_path_toml; [done|apply input_dir_in_fields|done|].
    simpl. set_solver. }
  pose proof (load_run _ _ _ _ Hp Hdir) as Hload. simpl in Hload.
  rewrite of_str_str in Hload by done.
  eexists _, _. split; [exact Hload|]. split; [done|]. split; [done|].
  simpl. split; [by rewrite lookup_insert_ne, lookup_insert_eq|].
  split; [by rewrite lookup_insert_eq|].
  split; [rewrite !dom_insert_L; set_solver|].
  apply (open_store_run _ (database_path (pathlib.parent p) (input_dir m0))).
  - apply lookup_insert_eq.
  - exact Hdb.
Qed.

End LoadAfterWrite.

Lemma load_after_write_witness :
  pathlib.Path_wf (input_dir Scenario.model)
  ∧ ∃ w1, write Scenario.dump_node Scenario.dump_edge
                (model_post_init Scenario.model) Scenario.toml_path Scenario.world
          = (inr Scenario.toml_path, w1)
      ∧ ∃ config w2,
          _load (Some Scenario.toml_path) w1 = (inr config, w2)
          ∧ fs w1 !! Scenario.toml_path = Some (TomlFile config)
          ∧ fs w2 = fs w1
          ∧ context_file_loading w2 !! "directory"
            = Some (pathlib.joinpath (pathlib.parent Scenario.toml_path)
                                     (input_dir Scenario.model))
          ∧ context_file_loading w2 !! "database"
            = Some (database_path (pathlib.parent Scenario.toml_path)
                                  (input_dir Scenario.model))
          ∧ dom (context_file_loading w2) = {["directory"; "database"]}
          ∧ open_store w2
            = (inr (default empty_database
                      (stored (model_post_init Scenario.model))), w2).
Proof.
  assert (Hwf : pathlib.Path_wf (input_dir Scenario.model))
    by (apply (bool_decide_unpack _); vm_compute; reflexivity).
  split; [exact Hwf|].
  eexists. split; [vm_compute; reflexivity|].
  eapply (load_after_write Scenario.dump_node Scenario.dump_edge
            Scenario.model Scenario.toml_path Scenario.toml_path Scenario.world _ Hwf).
  vm_compute. reflexivity.
Defined.

(** ** [_nodes] and repeated [node_table] calls *)

Section NodesOrder.
Context {D : Type}.
Variable df_empty : D → bool.

(** X8: [_nodes] yields the populated sub-models in the order in which
    [Model] declares the node classes, each class at most once, so at most
    fourteen; whether a field counts as set plays no part. *)
Theorem nodes_in_declaration_order (m : Model D) :
  _nodes df_empty m `sublist_of` MultiNodeModels m
  ∧ NoDup (_nodes df_empty m).*1
  ∧ (length (_nodes df_empty m) ≤ 14)%nat
  ∧ ∀ m', attributes m' = attributes m → _nodes df_empty m' = _nodes df_empty m.
Proof.
  assert (Hsub : _nodes df_empty m `sublist_of` MultiNodeModels m)
    by (rewrite nodes_filter; apply sublist_filter).
  split; [done|]. split; [|split].
  - eapply sublist_NoDup; [apply (MultiNodeModels_NoDup m)|].
    by apply fmap_sublist.
  - apply sublist_length in Hsub. by rewrite MultiNodeModels_unfold in Hsub.
  - intros m' Hattr. unfold _nodes, getattr. by rewrite Hattr.
Qed.

End NodesOrder.

Section NodeTableAgain.

Lemma list_filter_ext_in {A} (P Q : A → Prop) `{!∀ x, Decision (P x)}
    `{!∀ x, Decision (Q x)} (l : list A) :
  (∀ x, x ∈ l → P x ↔ Q x) → filter P l = filter Q l.
Proof.
  induction l as [|x l IH]; intros Hext; [done|].
  rewrite !filter_cons.
  rewrite IH by (intros y Hy; apply Hext; by right).
  destruct (decide (P x)) as [HP|HP], (decide (Q x)) as [HQ|HQ]; try done.
  - destruct HQ. by apply (Hext x); [left|].
  - destruct HP. by apply (Hext x); [left|].
Qed.

Lemma nodes_same_frames (h h' : gmap positive (list NodeRow)) (m : Model positive) :
  (∀ cls sub l, (cls, sub) ∈ MultiNodeModels m → df (node sub) = Some l →
                h' !! l = h !! l) →
  _nodes (frame_empty h') m = _nodes (frame_empty h) m
  ∧ chunk_rows h' m = chunk_rows h m.
Proof.
  intros Hsame.
  assert (Hnodes : _nodes (frame_empty h') m = _nodes (frame_empty h) m).
  { rewrite !nodes_filter. apply list_filter_ext_in. intros [cls sub] Hin.
    unfold populated. simpl.
    destruct (df (node sub)) as [l|] eqn:Hl; [|done].
    unfold frame_empty, frame. by rewrite (Hsame cls sub l). }
  split; [done|]. unfold chunk_rows. rewrite Hnodes.
  apply list_fmap_ext. intros i [cls sub] Hi. simpl.
  destruct (df (node sub)) as [l|] eqn:Hl; [|done].
  unfold frame. rewrite (Hsame cls sub l); [done| |done].
  apply list_elem_of_lookup_2 in Hi.
  apply elem_of_nodes in Hi as [(key & _ & Hget) _].
  rewrite nodes_filter in *.
  unfold MultiNodeModels. apply list_elem_of_omap.
  exists (key, AMultiNode cls sub). split; [|done].
  by apply dict_get_Some_elem_of.
Qed.

(** X9: [node_table] keeps no state between calls. When every node frame
    of the model exists, a second call after a successful one succeeds
    too and returns a new table, distinct from the first, holding the
    same rows in the same order; the first table is left as it was. *)
Theorem node_table_again (m : Model positive) (h h1 : gmap positive (list NodeRow))
    (t : NodeTable positive) :
  (∀ cls sub l, (cls, sub) ∈ MultiNodeModels m → df (node sub) = Some l →
                is_Some (h !! l)) →
  node_table m h = (inr t, h1) →
  ∃ t2 h2 l l2,
    node_table m h1 = (inr t2, h2)
    ∧ df t = Some l ∧ df t2 = Some l2 ∧ l2 ≠ l
    ∧ h2 !! l2 = h1 !! l
    ∧ h2 !! l = h1 !! l.
Proof.
  intros Hexists Hrun.
  pose proof Hrun as (Hne & -> & ->)%node_table_inr.
  set (l := fresh (dom h)) in *.
  set (rows := sort_by_id (concat (chunk_rows h m))).
  assert (Hsame : ∀ cls sub l0, (cls, sub) ∈ MultiNodeModels m →
            df (node sub) = Some l0 → (<[l := rows]> h) !! l0 = h !! l0).
  { intros cls sub l0 Hin Hl0. apply lookup_insert_ne. intros <-.
    destruct (Hexists cls sub l Hin Hl0) as [x Hx].
    subst l. by rewrite fresh_loc_not_in in Hx. }
  apply nodes_same_frames in Hsame as [Hnodes Hchunks].
  destruct (node_table_some m (<[l := rows]> h)) as (t2 & h2 & Hrun2);
    [by rewrite Hnodes|].
  pose proof Hrun2 as (_ & -> & ->)%node_table_inr.
  set (l2 := fresh (dom (<[l := rows]> h))) in *.
  assert (Hl2 : l2 ≠ l).
  { intros Heq. pose proof (fresh_loc_not_in (<[l := rows]> h)) as Hfresh.
    fold l2 in Hfresh. rewrite Heq, lookup_insert_eq in Hfresh. done. }
  eexists (mkNodeTable (Some l2)), _, l, l2.
  split; [exact Hrun2|]. split; [done|]. split; [done|]. split; [done|].
  rewrite Hchunks. split.
  - by rewrite !lookup_insert_eq.
  - by rewrite lookup_insert_ne.
Qed.

End NodeTableAgain.

Lemma node_table_again_witness :
  (∀ cls sub l, (cls, sub) ∈ MultiNodeModels Scenario.model_refs →
                df (node sub) = Some l → is_Some (Scenario.heap !! l))
  ∧ ∃ t h1, node_table Scenario.model_refs Scenario.heap = (inr t, h1)
      ∧ ∃ t2 h2 l l2,
          node_table Scenario.model_refs h1 = (inr t2, h2)
          ∧ df t = Some l ∧ df t2 = Some l2 ∧ l2 ≠ l
          ∧ h2 !! l2 = h1 !! l
          ∧ h2 !! l = h1 !! l.
Proof.
  assert (Hex : ∀ cls sub l, (cls, sub) ∈ MultiNodeModels Scenario.model_refs →
                  df (node sub) = Some l → is_Some (Scenario.heap !! l)).
  { intros cls sub l Hin Hl. rewrite MultiNodeModels_unfold in Hin.
    repeat (apply elem_of_cons in Hin as [[= -> ->]|Hin];
            [vm_compute in Hl; first [discriminate | injection Hl as <-; by eexists]|]).
    by apply elem_of_nil in Hin. }
  split; [exact Hex|].
  eexists _, _. split; [vm_compute; reflexivity|].
  eapply (node_table_again Scenario.model_refs Scenario.heap _ _ Hex).
  vm_compute. reflexivity.
Defined.

(** ** [model_post_init] and [serialize_path] *)

Section PostInit.
Context {D : Type}.

(** X10: [model_post_init] only adds the two directory fields to the set
    of explicitly set fields. Running it twice is the same as running it
    once, no attribute changes, so [_nodes] yields the same sub-models,
    and it changes nothing at all exactly when both fields already
    counted as set. *)
Theorem model_post_init_idempotent (m : Model D) :
  model_post_init (model_post_init m) = model_post_init m
  ∧ attributes (model_post_init m) = attributes m
  ∧ (∀ df_empty, _nodes df_empty (model_post_init m) = _nodes df_empty m)
  ∧ model_fields_set m ⊆ model_fields_set (model_post_init m)
  ∧ (model_post_init m = m
     ↔ "input_dir" ∈ model_fields_set m ∧ "results_dir" ∈ model_fields_set m).
Proof.
  split; [|split; [|split; [|split]]].
  - unfold model_post_init. simpl. f_equal.
    by rewrite <- (assoc_L (∪)), (idemp_L (∪)).
  - done.
  - done.
  - simpl. apply union_subseteq_l.
  - destruct m as [? ? ? ? ? ? ? ? ? ? ? ? ? ? ? ? ? ? ? ? ? ? ? ? set].
    unfold model_post_init. simpl. split.
    + intros [= Hset]. rewrite <- Hset.
      split; apply elem_of_union_r, elem_of_union;
        [left|right]; by apply elem_of_singleton.
    + intros [Hi Hr]. f_equal. rewrite (comm_L (∪)).
      apply subseteq_union_1_L.
      by intros k [->%elem_of_singleton| ->%elem_of_singleton]%elem_of_union.
Qed.

End PostInit.

Section SerializePath.

(** X11: the string [serialize_path] gives for a parsed path is never
    empty and parses back to the same path, so two parsed paths with the
    same string are the same path. *)
Theorem serialize_path_roundtrip (p : Path) :
  pathlib.Path_wf p →
  serialize_path p ≠ ""
  ∧ pathlib.of_str (serialize_path p) = p
  ∧ ∀ q, pathlib.Path_wf q → serialize_path q = serialize_path p → q = p.
Proof.
  intros Hwf. unfold serialize_path. split; [|split].
  - pose proof (str_truthy p) as Ht. simpl in Ht.
    apply negb_true_iff, String.eqb_neq in Ht. exact Ht.
  - by apply of_str_str.
  - intros q Hq Heq.
    rewrite <- (of_str_str q), <- (of_str_str p) by done. by rewrite Heq.
Qed.

End SerializePath.

Lemma serialize_path_roundtrip_witness :
  pathlib.Path_wf Scenario.toml_path
  ∧ serialize_path Scenario.toml_path ≠ ""
  ∧ pathlib.of_str (serialize_path Scenario.toml_path) = Scenario.toml_path
  ∧ ∀ q, pathlib.Path_wf q →
         serialize_path q = serialize_path Scenario.toml_path →
         q = Scenario.toml_path.
Proof.
  assert (Hwf : pathlib.Path_wf Scenario.toml_path)
    by (apply (bool_decide_unpack _); vm_compute; reflexivity).
  split; [exact Hwf|].
  exact (serialize_path_roundtrip Scenario.toml_path Hwf).
Defined.

(** ** [__repr__] *)

Section ReprFacts.
Context {D : Type}.
Variable repr : Attr D → string.

Lemma getattr_is_Some (m : Model D) key :
  key ∈ model_fields → is_Some (getattr m key).
Proof.
  intros Hin. unfold model_fields in Hin.
  repeat (apply elem_of_cons in Hin as [->|Hin]; [by eexists|]).
  by apply elem_of_nil in Hin.
Qed.

Lemma getattr_edge (m : Model D) : getattr m "edge" = Some (AEdge (edge m)).
Proof. reflexivity. Qed.

Lemma repr_fields_is_Some (m : Model D) names :
  names ⊆ model_fields → is_Some (repr_fields repr m names).
Proof.
  induction names as [|field rest IH]; intros Hsub; simpl; [by eexists|].
  destruct (getattr_is_Some m field) as [attr ->]; [apply Hsub; by left|].
  destruct IH as [lines ->]; [intros k Hk; apply Hsub; by right|].
  by eexists.
Qed.

Lemma repr_fields_edge (m m' : Model D) names :
  (∀ key, key ≠ "edge" → getattr m' key = getattr m key) →
  repr_fields repr m' names = repr_fields repr m names.
Proof.
  intros Hsame. induction names as [|field rest IH]; simpl; [done|].
  rewrite IH. destruct (decide (field = "edge")) as [->|Hne].
  - by rewrite !getattr_edge.
  - by rewrite Hsame.
Qed.

Lemma repr_fields_skip (m : Model D) names field cls sub :
  getattr m field = Some (AMultiNode cls sub) →
  df (node sub) = None →
  repr_fields repr m (filter (λ f, f ≠ field) names) = repr_fields repr m names.
Proof.
  intros Hget Hdf. induction names as [|f rest IH]; [done|].
  rewrite filter_cons. destruct (decide (f ≠ field)) as [Hne|Heq].
  - simpl. by rewrite IH.
  - apply dec_stable in Heq. subst f. simpl. rewrite IH, Hget. simpl.
    rewrite Hdf. simpl. by destruct (repr_fields repr m rest).
Qed.

Lemma repr_fields_shown (m : Model D) names lines field cls sub d :
  repr_fields repr m names = Some lines →
  field ∈ names →
  getattr m field = Some (AMultiNode cls sub) →
  df (node sub) = Some d →
  INDENT +:+ field +:+ "=" +:+ repr (AMultiNode cls sub) +:+ "," ∈ lines.
Proof.
  intros Hrun Hin Hget Hdf. revert lines Hrun.
  induction names as [|f rest IH]; intros lines Hrun; [by apply elem_of_nil in Hin|].
  simpl in Hrun.
  destruct (getattr m f) as [attr|] eqn:Hf; [|done]. simpl in Hrun.
  destruct (repr_fields repr m rest) as [lines'|] eqn:Hrest; [|done].
  simpl in Hrun. injection Hrun as <-.
  apply elem_of_cons in Hin as [->|Hin].
  - rewrite Hget in Hf. injection Hf as <-. rewrite Hdf.
    apply elem_of_app. left. by left.
  - apply elem_of_app. right. by apply IH.
Qed.

Lemma repr_fields_length (m : Model D) names lines :
  repr_fields repr m names = Some lines → (length lines ≤ length names)%nat.
Proof.
  revert lines. induction names as [|f rest IH]; intros lines; simpl.
  - by intros [= <-].
  - destruct (getattr m f) as [attr|]; [|done]. simpl.
    destruct (repr_fields repr m rest) as [lines'|]; [|done]. simpl.
    intros [= <-]. specialize (IH _ eq_refl). rewrite length_app.
    destruct attr as [| | | |cls sub|]; simpl; try lia.
    destruct (df (node sub)); simpl; lia.
Qed.

(** X12: for field names that are fields of the model, [__repr__]
    returns an overview that opens with [ribasim.Model(] and closes with
    [)], with at most one line per field in between. A node class whose
    node table is absent is skipped as if the field were not listed; one
    whose table is present, even if empty, has its line; and the text
    does not depend on the rows of the edge table. *)
Theorem repr_overview (fields : list string) (m : Model D) :
  fields ⊆ model_fields →
  ∃ lines,
    repr_fields repr m fields = Some lines
    ∧ __repr__ repr fields m
      = Some (String.concat newline (["ribasim.Model("] ++ lines ++ [")"]))
    ∧ (length lines ≤ length fields)%nat
    ∧ (∀ field cls sub,
         getattr m field = Some (AMultiNode cls sub) →
         match df (node sub) with
         | None =>
             __repr__ repr (filter (λ f, f ≠ field) fields) m
             = __repr__ repr fields m
         | Some _ =>
             field ∈ fields →
             INDENT +:+ field +:+ "=" +:+ repr (AMultiNode cls sub) +:+ ","
             ∈ lines
         end)
    ∧ (∀ m', (∀ key, key ≠ "edge" → getattr m' key = getattr m key) →
             __repr__ repr fields m' = __repr__ repr fields m).
Proof.
  intros Hsub. destruct (repr_fields_is_Some m fields Hsub) as [lines Hlines].
  exists lines. split; [done|]. split; [|split; [|split]].
  - unfold __repr__. by rewrite Hlines.
  - by eapply repr_fields_length.
  - intros field cls sub Hget. destruct (df (node sub)) as [d|] eqn:Hdf.
    + intros Hin. by eapply repr_fields_shown.
    + unfold __repr__. by erewrite repr_fields_skip.
  - intros m' Hsame. unfold __repr__. by rewrite (repr_fields_edge m m').
Qed.

End ReprFacts.

Lemma repr_overview_witness :
  model_fields ⊆ model_fields
  ∧ ∃ lines,
      repr_fields (λ _, "...") Scenario.model model_fields = Some lines
      ∧ __repr__ (λ _, "...") model_fields Scenario.model
        = Some (String.concat newline (["ribasim.Model("] ++ lines ++ [")"]))
      ∧ (length lines ≤ length model_fields)%nat
      ∧ (∀ field cls sub,
           getattr Scenario.model field = Some (AMultiNode cls sub) →
           match df (node sub) with
           | None =>
               __repr__ (λ _, "...") (filter (λ f, f ≠ field) model_fields)
                        Scenario.model
               = __repr__ (λ _, "...") model_fields Scenario.model
           | Some _ =>
               field ∈ model_fields →
               INDENT +:+ field +:+ "=" +:+ "..." +:+ "," ∈ lines
           end)
      ∧ (∀ m', (∀ key, key ≠ "edge" →
                       getattr m' key = getattr Scenario.model key) →
               __repr__ (λ _, "...") model_fields m'
               = __repr__ (λ _, "...") model_fields Scenario.model).
Proof.
  split; [done|].
  apply (repr_overview (λ _, "...") model_fields Scenario.model). done.
Defined.

(** ** Writing over an earlier model *)

Section WriteOver.
Variable dump_node : string → MultiNodeModel (list NodeRow) → list (string * Scalar).
Variable dump_edge : EdgeTable → list (string * Scalar).

(** X13: a [write] leaves no trace of a model written to the same path
    before. When a model is written over another one with the same
    [input_dir], the file system and the context end up exactly as if the
    second model had been written alone. *)
Theorem write_over (m1 m2 : Model (list NodeRow)) (p fn1 fn2 fn3 : Path)
    (w w1 w2 w3 : World) :
  input_dir m2 = input_dir m1 →
  write dump_node dump_edge m1 p w = (inr fn1, w1) →
  write dump_node dump_edge m2 p w1 = (inr fn2, w2) →
  write dump_node dump_edge m2 p w = (inr fn3, w3) →
  w2 = w3.
Proof.
  intros Hidir
    (Hsuf & _ & fA & fB & HfA & HfB & Hdb & Hp & Hdir & ->)%write_inr
    (_ & _ & fA2 & fB2 & HfA2 & HfB2 & _ & _ & _ & ->)%write_inr
    (_ & _ & fA3 & fB3 & HfA3 & HfB3 & _ & _ & _ & ->)%write_inr.
  rewrite Hidir in *.
  set (db := database_path (pathlib.parent p) (input_dir m1)) in *.
  set (fD := store_fs (delete db fB) db (stored m1)) in *.
  set (fE := <[p := TomlFile (toml_content dump_node dump_edge m1)]> fD) in *.
  assert (Hne : p ≠ db) by by apply toml_path_ne_database.
  assert (Hfd : ∀ st f q, q ≠ db → store_fs (delete db f) db st !! q = f !! q).
  { intros st f q Hq. destruct st; simpl;
      rewrite ?lookup_insert_ne, lookup_delete_ne; done. }
  assert (Hfd_db : ∀ st f, store_fs (delete db f) db st !! db = Gpkg <$> st).
  { intros st f. destruct st; simpl;
      [apply lookup_insert_eq | apply lookup_delete_eq]. }
  assert (Hkeep : ∀ q, fB !! q = Some Dir → fE !! q = Some Dir).
  { intros q Hq. subst fE.
    assert (q ≠ db) by (intros ->; done).
    rewrite lookup_insert_ne; [subst fD; by rewrite Hfd|].
    intros ->. apply Hp. subst fD. by rewrite Hfd. }
  rewrite HfA in HfA3. injection HfA3 as <-.
  rewrite HfB in HfB3. injection HfB3 as <-.
  assert (HE1 : mkdir_from (pathlib.absolute (pathlib.parent p)) []
                  (pathlib.parts (pathlib.parent p)) fE = inr fE).
  { apply mkdir_from_existing.
    eapply Forall_impl; [exact (mkdir_from_dirs _ _ _ _ _ HfA)|].
    intros q Hq. simpl in Hq. apply Hkeep.
    exact (mkdir_from_keeps _ _ _ _ _ _ _ HfB Hq). }
  assert (HE2 : mkdir_from (pathlib.absolute (pathlib.parent db)) []
                  (pathlib.parts (pathlib.parent db)) fE = inr fE).
  { apply mkdir_from_existing.
    eapply Forall_impl; [exact (mkdir_from_dirs _ _ _ _ _ HfB)|].
    intros q Hq. by apply Hkeep. }
  cbn [fs] in HfA2. rewrite HE1 in HfA2. injection HfA2 as <-.
  rewrite HE2 in HfB2. injection HfB2 as <-.
  f_equal. apply map_eq. intros q.
  destruct (decide (q = p)) as [->|Hqp]; [by rewrite !lookup_insert_eq|].
  rewrite !lookup_insert_ne by done.
  destruct (decide (q = db)) as [->|Hqdb]; [by rewrite !Hfd_db|].
  rewrite !Hfd by done. subst fE. rewrite lookup_insert_ne by done.
  subst fD. by rewrite Hfd.
Qed.

End WriteOver.

Lemma write_over_witness :
  input_dir Scenario.model_default = input_dir Scenario.model
  ∧ ∃ w1 w2 w3,
      write Scenario.dump_node Scenario.dump_edge Scenario.model
            Scenario.toml_path Scenario.world = (inr Scenario.toml_path, w1)
      ∧ write Scenario.dump_node Scenario.dump_edge Scenario.model_default
              Scenario.toml_path w1 = (inr Scenario.toml_path, w2)
      ∧ write Scenario.dump_node Scenario.dump_edge Scenario.model_default
              Scenario.toml_path Scenario.world = (inr Scenario.toml_path, w3)
      ∧ w2 = w3.
Proof.
  split; [reflexivity|].
  eexists _, _, _.
  split; [vm_compute; reflexivity|].
  split; [vm_compute; reflexivity|].
  split; [vm_compute; reflexivity|].
  eapply (write_over Scenario.dump_node Scenario.dump_edge Scenario.model
            Scenario.model_default Scenario.toml_path
            Scenario.toml_path Scenario.toml_path Scenario.toml_path
            Scenario.world _ _ _ eq_refl);
    vm_compute; reflexivity.
Defined.

(** ** Where [_load] looks for the store *)

Section LoadLocation.

Lemma joinpath_here (d : Path) : pathlib.joinpath d (pathlib.of_str ".") = d.
Proof.
  destruct d as [a ps]. unfold pathlib.joinpath. simpl. by rewrite app_nil_r.
Qed.

(** X14: [_load] of a configuration file without an [input_dir] key looks
    for the store next to the file; with an [input_dir] that is an
    absolute path it looks there, wherever the file is. Either way it
    returns the parsed document and records directory and store, and
    nothing else, in the context. *)
Theorem load_store_location (p : Path) (config : list (string * Value)) (w : World) :
  fs w !! p = Some (TomlFile config) →
  (dict_get "input_dir" config = None →
     _load (Some p) w
     = (inr config,
        mkWorld (fs w)
          {[ "directory" := pathlib.parent p;
             "database" := pathlib.joinpath (pathlib.parent p)
                             (pathlib.of_str "database.gpkg") ]}))
  ∧ (∀ s, dict_get "input_dir" config = Some (VScalar (SStr s)) →
          pathlib.absolute (pathlib.of_str s) = true →
          _load (Some p) w
          = (inr config,
             mkWorld (fs w)
               {[ "directory" := pathlib.of_str s;
                  "database" := pathlib.joinpath (pathlib.of_str s)
                                  (pathlib.of_str "database.gpkg") ]})).
Proof.
  intros Hp. split.
  - intros Hnone. unfold _load.
    rewrite (bind_run _ _ _ tt (set_context ∅ w)) by done.
    rewrite (bind_run _ _ _ config (set_context ∅ w))
      by (unfold open_rb_toml, bind, get_world; simpl; by rewrite Hp).
    rewrite Hnone.
    rewrite (bind_run _ _ _ (pathlib.of_str ".") (set_context ∅ w)) by done.
    rewrite joinpath_here.
    unfold bind, context_setitem, ret, set_context. simpl. by f_equal.
  - intros s Hs Habs. rewrite (load_run _ _ _ _ Hp Hs). simpl.
    unfold pathlib.joinpath at 2 3. rewrite Habs. by f_equal.
Qed.

End LoadLocation.

Lemma load_store_location_witness :
  fs (mkWorld {[ Scenario.toml_path := TomlFile [] ]} ∅) !! Scenario.toml_path
  = Some (TomlFile [])
  ∧ _load (Some Scenario.toml_path)
          (mkWorld {[ Scenario.toml_path := TomlFile [] ]} ∅)
    = (inr [],
       mkWorld {[ Scenario.toml_path := TomlFile [] ]}
         {[ "directory" := pathlib.parent Scenario.toml_path;
            "database" := pathlib.joinpath (pathlib.parent Scenario.toml_path)
                            (pathlib.of_str "database.gpkg") ]}).
Proof.
  assert (H : fs (mkWorld {[ Scenario.toml_path := TomlFile [] ]} ∅)
              !! Scenario.toml_path = Some (TomlFile []))
    by (vm_compute; reflexivity).
  split; [exact H|].
  exact (proj1 (load_store_location Scenario.toml_path []
                  (mkWorld {[ Scenario.toml_path := TomlFile [] ]} ∅) H) eq_refl).
Defined.
